(** * spotify-time-capsule: the playlist creator script, embedded and verified

    The development follows [spotify-time-capsule-playlist-creator.py].
    Every Python function of the script is a definition of the same name.
    The script talks to three things it does not implement itself: the
    process environment and the file system, NumPy's global random state
    (through [DataFrame.sample]) and the Spotify Web API (through a
    [spotipy.Spotify] object).  Each of them is modelled explicitly:

    - exceptions and non-termination by the [outcome] type, state by the
      state-and-exception monad [M];
    - the random state by the stream of raw draws it will deliver, with the
      shuffle that NumPy runs on top of it written out;
    - the Spotify client by the interface [SpotifyClient] (the methods the
      script calls on [sp]), with one reference implementation
      [RefSpotify] that stores the paginated playlist collection. *)

From stdpp Require Import gmap strings list fin_maps pretty.
From Stdlib Require Import ZArith.

(** ** Exceptions, outcomes and the state monad *)

Inductive exn : Type :=
  | NameError (name : string)
  | FileNotFoundError (msg : string)
  | ValueError (msg : string)
  | KeyError (key : string)
  | IndexError
  | ParserError
  | JSONDecodeError
  | SpotifyOauthError (msg : string)
  | SpotifyException (http_status : nat).

(** [OutOfFuel] is not a Python outcome: it marks a run of a [while] loop
    that the model stopped after its fuel was used up. *)
Inductive outcome (A : Type) : Type :=
  | Ret (a : A)
  | Raise (e : exn)
  | OutOfFuel.
Arguments Ret {A} a.
Arguments Raise {A} e.
Arguments OutOfFuel {A}.

Definition M (S A : Type) : Type := S → outcome A * S.

Definition ret {S A} (a : A) : M S A := λ s, (Ret a, s).

Definition raise {S A} (e : exn) : M S A := λ s, (Raise e, s).

Definition bind {S A B} (c : M S A) (k : A → M S B) : M S B :=
  λ s, match c s with
       | (Ret a, s') => k a s'
       | (Raise e, s') => (Raise e, s')
       | (OutOfFuel, s') => (OutOfFuel, s')
       end.

Definition lift_outcome {S A} (o : outcome A) : M S A := λ s, (o, s).

Declare Scope py_scope.
Delimit Scope py_scope with py.
Notation "x <- c ;; k" := (bind c (λ x, k))
  (at level 100, c at next level, right associativity) : py_scope.
Notation "c ;;; k" := (bind c (λ _, k))
  (at level 100, right associativity) : py_scope.
Open Scope py_scope.

(** Python truthiness of the values the script tests. *)
Definition truthy_str (v : option string) : bool :=
  match v with
  | Some s => negb (String.eqb s "")
  | None => false
  end.

Definition truthy_list {A} (l : list A) : bool :=
  match l with
  | [] => false
  | _ :: _ => true
  end.

(** ** NumPy's random state and sampling without replacement

    [DataFrame.sample(n=10)] calls [numpy.random.choice(len, size=10,
    replace=False)], which is the first [size] entries of
    [permutation(len)], a Fisher-Yates shuffle of [arange(len)] driven by
    [random_interval].  The generator is the sequence of raw draws it
    delivers and a cursor into it; every theorem below holds for every
    such sequence. *)

Record RandomState : Type := mkRandomState {
  draws : nat → nat;
  pos : nat
}.

(** [random_interval(max)]: a value in [0, max], one raw draw consumed. *)
Definition random_interval (max : nat) : M RandomState nat :=
  λ g, (Ret (draws g (pos g) `mod` S max),
        {| draws := draws g; pos := S (pos g) |}).

(** [x[i], x[j] = x[j], x[i]] *)
Definition swap (i j : nat) (x : list nat) : list nat :=
  match x !! i, x !! j with
  | Some a, Some b => <[i := b]> (<[j := a]> x)
  | _, _ => x
  end.

(** [for i in reversed(range(1, n)): j = random_interval(i); swap]
    started at [i]. *)
Fixpoint shuffle_from (i : nat) (x : list nat) : M RandomState (list nat) :=
  match i with
  | 0 => ret x
  | S i' => j <- random_interval i ;; shuffle_from i' (swap i j x)
  end.

Definition shuffle (x : list nat) : M RandomState (list nat) :=
  shuffle_from (length x - 1) x.

Definition permutation (n : nat) : M RandomState (list nat) :=
  shuffle (seq 0 n).

(** [choice(pop_size, size, replace=False)] *)
Definition choice (pop_size size : nat) : M RandomState (list nat) :=
  if (pop_size =? 0) && (0 <? size) then
    raise (ValueError "a must be greater than 0 unless no samples are taken")
  else if pop_size <? size then
    raise (ValueError
      "Cannot take a larger sample than population when 'replace=False'")
  else
    idx <- permutation pop_size ;;
    ret (take size idx).

(** ** The data frame read from the CSV file *)

Record row : Type := mkRow {
  uri : string;
  plays : Z
}.

Definition DataFrame : Type := list row.

(** [df.take(locs)]: the rows at the given positions, in that order. *)
Definition DataFrame_take (locs : list nat) (df : DataFrame)
  : outcome (list row) :=
  match mapM (λ i, df !! i) locs with
  | Some rows => Ret rows
  | None => Raise IndexError
  end.

(** [df.sample(n=n)] *)
Definition DataFrame_sample (n : nat) (df : DataFrame)
  : M RandomState (list row) :=
  locs <- choice (length df) n ;;
  lift_outcome (DataFrame_take locs df).

(** ** The process environment and the files the script reads *)

Inductive file : Type :=
  | Csv (table : DataFrame)
  | Json (obj : gmap string string)
  | Other.

Record os_state : Type := mkOs {
  environ : gmap string string;
  files : gmap string file
}.

Definition getenv (os : os_state) (name : string) : option string :=
  environ os !! name.

Definition path_exists (os : os_state) (path : string) : bool :=
  bool_decide (is_Some (files os !! path)).

Definition read_csv (os : os_state) (path : string) : outcome DataFrame :=
  match files os !! path with
  | Some (Csv df) => Ret df
  | Some _ => Raise ParserError
  | None => Raise (FileNotFoundError path)
  end.

(** The three play-count strata, as the boolean masks of the script. *)
Definition high (df : DataFrame) : DataFrame :=
  filter (λ r, (10 ≤ plays r)%Z) df.

Definition medium (df : DataFrame) : DataFrame :=
  filter (λ r, (5 ≤ plays r)%Z ∧ (plays r < 10)%Z) df.

Definition low (df : DataFrame) : DataFrame :=
  filter (λ r, (plays r < 5)%Z) df.

Definition filter_tracks_by_play_count (os : os_state) (csv_file : string)
  : M RandomState (list string) :=
  df <- lift_outcome (read_csv os csv_file) ;;
  let tracks_to_add : list string := [] in
  s <- DataFrame_sample 10 (high df) ;;
  let tracks_to_add := tracks_to_add ++ (uri <$> s) in
  s <- DataFrame_sample 10 (medium df) ;;
  let tracks_to_add := tracks_to_add ++ (uri <$> s) in
  s <- DataFrame_sample 10 (low df) ;;
  let tracks_to_add := tracks_to_add ++ (uri <$> s) in
  ret tracks_to_add.

(** ** The Spotify client

    The objects the Web API returns, as far as the script reads them. *)

Record playlist : Type := mkPlaylist {
  pl_id : string;
  pl_name : string;
  pl_description : string;
  pl_public : bool;
  pl_tracks : list string;
  pl_external_url : string
}.

(** One page of [current_user_playlists()]: [items] and the [next] URL. *)
Record page : Type := mkPage {
  items : list playlist;
  next : option string
}.

(** The user object of [me()]; the script reads its ["id"] entry. *)
Record user : Type := mkUser { u_id : string }.

(** The dictionary [refresh_access_token] returns; the script reads its
    ["access_token"] entry. *)
Record token_info : Type := mkTokenInfo { tok_access_token : string }.

(** [spotipy.Spotify(auth=...)] *)
Record Spotify : Type := mkSpotify { auth : string }.

(** A [SpotifyOAuth] object, recorded by the arguments the script passed
    to its constructor: [SpotifyOAuth(client_id=..., client_secret=...,
    redirect_uri=..., scope=...)].  The constructor itself is
    [SpotifyOAuth_init] below. *)
Record SpotifyOAuth : Type := mkSpotifyOAuth {
  oauth_client_id : string;
  oauth_client_secret : string;
  oauth_redirect_uri : option string;
  oauth_scope : string
}.

(** The remote calls a run can make, as they are logged. *)
Inductive call : Type :=
  | Call_refresh_access_token (oauth : SpotifyOAuth) (refresh_token : string)
  | Call_me
  | Call_current_user_playlists
  | Call_get (url : string)
  | Call_user_playlist_create
      (user name : string) (public : bool) (description : string)
  | Call_playlist_replace_items (playlist_id : string) (uris : list string)
  | Call_playlist_add_items (playlist_id : string) (uris : list string).

(** The calls that change a playlist or the playlist collection. *)
Definition is_mutation (c : call) : bool :=
  match c with
  | Call_user_playlist_create _ _ _ _
  | Call_playlist_replace_items _ _
  | Call_playlist_add_items _ _ => true
  | _ => false
  end.

(** The calls that write the items of a playlist. *)
Definition is_items_write (c : call) : bool :=
  match c with
  | Call_playlist_replace_items _ _
  | Call_playlist_add_items _ _ => true
  | _ => false
  end.

(** What the script needs of the service: one operation per remote call,
    over the service's own state [W]. *)
Class SpotifyClient (W : Type) : Type := {
  web_refresh_access_token : SpotifyOAuth → string → M W token_info;
  web_me : Spotify → M W user;
  web_current_user_playlists : Spotify → M W page;
  web_get : Spotify → string → M W page;
  web_user_playlist_create :
    Spotify → string → string → bool → string → M W playlist;
  web_playlist_replace_items : Spotify → string → list string → M W unit;
  web_playlist_add_items : Spotify → string → list string → M W unit
}.

(** The state of a run: the service, the random state, the log of remote
    calls made so far and the lines printed so far (both oldest first). *)
Record run (W : Type) : Type := mkRun {
  remote : W;
  rng : RandomState;
  calls : list call;
  stdout : list string
}.
Arguments mkRun {W} _ _ _ _.
Arguments remote {W} _.
Arguments rng {W} _.
Arguments calls {W} _.
Arguments stdout {W} _.

Section Script.
Context {W : Type} `{SpotifyClient W}.

(** A remote call: run it on the service and append it to the log. *)
Definition request {A} (c : call) (op : M W A) : M (run W) A :=
  λ s, let (r, w) := op (remote s) in
       (r, mkRun w (rng s) (calls s ++ [c]) (stdout s)).

Definition print (line : string) : M (run W) unit :=
  λ s, (Ret (), mkRun (remote s) (rng s) (calls s) (stdout s ++ [line])).

(** Code that only uses the random state. *)
Definition with_rng {A} (c : M RandomState A) : M (run W) A :=
  λ s, let (r, g) := c (rng s) in
       (r, mkRun (remote s) g (calls s) (stdout s)).

Definition out_of_fuel {A} : M (run W) A := λ s, (OutOfFuel, s).

(** The methods of [sp] and of [sp_oauth]. *)
Definition refresh_access_token (sp_oauth : SpotifyOAuth)
    (refresh_token : string) : M (run W) token_info :=
  request (Call_refresh_access_token sp_oauth refresh_token)
          (web_refresh_access_token sp_oauth refresh_token).

Definition sp_me (sp : Spotify) : M (run W) user :=
  request Call_me (web_me sp).

Definition sp_current_user_playlists (sp : Spotify) : M (run W) page :=
  request Call_current_user_playlists (web_current_user_playlists sp).

(** spotipy's [next(result)]: fetch [result["next"]] if there is one. *)
Definition sp_next (sp : Spotify) (result : page)
  : M (run W) (option page) :=
  if truthy_str (next result) then
    p <- request (Call_get (default "" (next result)))
                 (web_get sp (default "" (next result))) ;;
    ret (Some p)
  else ret None.

Definition sp_user_playlist_create (sp : Spotify) (user name : string)
    (public : bool) (description : string) : M (run W) playlist :=
  request (Call_user_playlist_create user name public description)
          (web_user_playlist_create sp user name public description).

Definition sp_playlist_replace_items (sp : Spotify)
    (playlist_id : string) (uris : list string) : M (run W) unit :=
  request (Call_playlist_replace_items playlist_id uris)
          (web_playlist_replace_items sp playlist_id uris).

Definition sp_playlist_add_items (sp : Spotify)
    (playlist_id : string) (uris : list string) : M (run W) unit :=
  request (Call_playlist_add_items playlist_id uris)
          (web_playlist_add_items sp playlist_id uris).

End Script.

(** ** The script *)

(** The values bound at module level.  Python resolves a name that is not
    local to a function in these globals (and then in the builtins, which
    hold none of the names below nor [redirect_uri]). *)
Inductive pyvalue : Type :=
  | PyStr (s : string)
  | PyModule
  | PyClass
  | PyFunction.

Definition TOKEN_PATH : string := ".spotify_tokens.json".

Definition module_globals : gmap string pyvalue :=
  list_to_map
    [ ("os", PyModule); ("json", PyModule); ("spotipy", PyModule);
      ("SpotifyOAuth", PyClass); ("pd", PyModule); ("random", PyModule);
      ("TOKEN_PATH", PyStr TOKEN_PATH);
      ("get_spotify_client", PyFunction); ("create_playlist", PyFunction);
      ("add_tracks", PyFunction); ("playlist_exists", PyFunction);
      ("replace_tracks", PyFunction);
      ("filter_tracks_by_play_count", PyFunction);
      ("create_or_update_playlist", PyFunction); ("main", PyFunction) ].

Definition load_global {S} (name : string) : M S pyvalue :=
  match module_globals !! name with
  | Some v => ret v
  | None => raise (NameError name)
  end.

Definition truthy_value (v : pyvalue) : bool :=
  match v with
  | PyStr s => negb (String.eqb s "")
  | _ => true
  end.

(** [json.load] of an opened file, and [data[key]]. *)
Definition json_load (os : os_state) (path : string)
  : outcome (gmap string string) :=
  match files os !! path with
  | Some (Json obj) => Ret obj
  | Some _ => Raise JSONDecodeError
  | None => Raise (FileNotFoundError path)
  end.

Definition getitem {S} (data : gmap string string) (key : string)
  : M S string :=
  match data !! key with
  | Some v => ret v
  | None => raise (KeyError key)
  end.

Definition SCOPE : string := "playlist-modify-public playlist-modify-private".

(** spotipy's [_ensure_value(value, env_key)], which the constructor of
    [SpotifyOAuth] applies to its credentials: [value or
    os.getenv(env_val)], and [SpotifyOauthError] when that is [None].
    An argument that is empty or absent is thus replaced by the
    [SPOTIPY_] variable, and rejected when that variable is unset. *)
Definition ensure_value (os : os_state) (value : option string)
    (env_key env_val : string) : outcome string :=
  match (if truthy_str value then value else getenv os env_val) with
  | Some v => Ret v
  | None =>
      Raise (SpotifyOauthError
               ("No " +:+ env_key +:+ ". Pass it or set a " +:+ env_val
                +:+ " environment variable."))
  end.

(** The constructor [SpotifyOAuth(client_id, client_secret, redirect_uri,
    scope)]: it checks the client id, the client secret and the redirect
    URI, in this order, and sends no request. *)
Definition SpotifyOAuth_init {S} (os : os_state)
    (client_id client_secret : string) (redirect_uri : option string)
    (scope : string) : M S SpotifyOAuth :=
  lift_outcome
    (ensure_value os (Some client_id) "client_id" "SPOTIPY_CLIENT_ID") ;;;
  lift_outcome
    (ensure_value os (Some client_secret) "client_secret"
       "SPOTIPY_CLIENT_SECRET") ;;;
  lift_outcome
    (ensure_value os redirect_uri "redirect_uri" "SPOTIPY_REDIRECT_URI") ;;;
  ret (mkSpotifyOAuth client_id client_secret redirect_uri scope).

Section Functions.
Context {W : Type} `{SpotifyClient W}.

Definition get_spotify_client (os : os_state) : M (run W) Spotify :=
  (* 1) direct access token *)
  let access_token := getenv os "SPOTIFY_ACCESS_TOKEN" in
  if truthy_str access_token then
    ret (mkSpotify (default "" access_token))
  else
  (* 2) credentials and refresh token from the environment *)
  let client_id := getenv os "SPOTIFY_CLIENT_ID" in
  let client_secret := getenv os "SPOTIFY_CLIENT_SECRET" in
  let refresh_token := getenv os "SPOTIFY_REFRESH_TOKEN" in
  (* [client_id and client_secret and refresh_token and redirect_uri]:
     [and] reads its right operand only when the left one is truthy *)
  cond <- (if truthy_str client_id && truthy_str client_secret
              && truthy_str refresh_token
           then v <- load_global "redirect_uri" ;; ret (truthy_value v)
           else ret false) ;;
  if cond : bool then
    sp_oauth <-
      SpotifyOAuth_init os (default "" client_id) (default "" client_secret)
                        None SCOPE ;;
    token_info <- refresh_access_token sp_oauth (default "" refresh_token) ;;
    ret (mkSpotify (tok_access_token token_info))
  else
  (* 3) the stored tokens file *)
  if negb (path_exists os TOKEN_PATH) then
    raise (FileNotFoundError
      "No .spotify_tokens.json file found. Run spotify_auth.py first to authorise or set environment variables.")
  else
    data <- lift_outcome (json_load os TOKEN_PATH) ;;
    cid <- getitem data "client_id" ;;
    csecret <- getitem data "client_secret" ;;
    ruri <- getitem data "redirect_uri" ;;
    sp_oauth <- SpotifyOAuth_init os cid csecret (Some ruri) SCOPE ;;
    rtoken <- getitem data "refresh_token" ;;
    token_info <- refresh_access_token sp_oauth rtoken ;;
    let sp := mkSpotify (tok_access_token token_info) in
    ret sp.

Definition create_playlist (sp : Spotify) (name description : string)
    (public : bool) : M (run W) string :=
  u <- sp_me sp ;;
  let user_id := u_id u in
  playlist <- sp_user_playlist_create sp user_id name public description ;;
  print ("✅ Created playlist: " +:+ pl_name playlist +:+ " ("
         +:+ pl_external_url playlist +:+ ")") ;;;
  ret (pl_id playlist).

Definition add_tracks (sp : Spotify) (playlist_id : string)
    (track_uris : list string) : M (run W) unit :=
  if negb (truthy_list track_uris) then
    print "No tracks to add." ;;;
    ret ()
  else
    sp_playlist_add_items sp playlist_id track_uris ;;;
    print ("🎵 Added " +:+ pretty (length track_uris)
           +:+ " tracks to playlist.").

(** The body of the [for] loop over one page: the id of the first item
    with the given name, if the loop returns. *)
Fixpoint for_playlist_in (its : list playlist) (name : string)
  : option string :=
  match its with
  | [] => None
  | playlist :: rest =>
      if String.eqb (pl_name playlist) name then Some (pl_id playlist)
      else for_playlist_in rest name
  end.

(** [while playlists: ...], one unit of fuel per iteration. *)
Fixpoint while_playlists (fuel : nat) (sp : Spotify) (name : string)
    (playlists : option page) : M (run W) (option string) :=
  match playlists with
  | None => ret None
  | Some pg =>
      match fuel with
      | 0 => out_of_fuel
      | S fuel' =>
          match for_playlist_in (items pg) name with
          | Some found => ret (Some found)
          | None =>
              if truthy_str (next pg) then
                playlists <- sp_next sp pg ;;
                while_playlists fuel' sp name playlists
              else
                while_playlists fuel' sp name None
          end
      end
  end.

Definition playlist_exists (fuel : nat) (sp : Spotify) (name : string)
  : M (run W) (option string) :=
  playlists <- sp_current_user_playlists sp ;;
  while_playlists fuel sp name (Some playlists).

Definition replace_tracks (sp : Spotify) (playlist_id : string)
    (track_uris : list string) : M (run W) unit :=
  sp_playlist_replace_items sp playlist_id track_uris ;;;
  print ("🎵 Replaced tracks in playlist with ID: " +:+ playlist_id +:+ ".").

Definition create_or_update_playlist (fuel : nat) (os : os_state)
    (sp : Spotify) (user_id playlist_name csv_file : string)
  : M (run W) unit :=
  playlist_id <- playlist_exists fuel sp playlist_name ;;
  playlist_id <-
    (if negb (truthy_str playlist_id) then
       playlist <- sp_user_playlist_create sp user_id playlist_name true "" ;;
       ret (pl_id playlist)
     else ret (default "" playlist_id)) ;;
  tracks_to_add <- with_rng (filter_tracks_by_play_count os csv_file) ;;
  replace_tracks sp playlist_id tracks_to_add.

Definition main (fuel : nat) (os : os_state) : M (run W) unit :=
  sp <- get_spotify_client os ;;
  let playlist_name := "My time capsule" in
  playlist_id <- playlist_exists fuel sp playlist_name ;;
  playlist_id <-
    (if negb (truthy_str playlist_id) then
       let description :=
         "Abbie's time capsule playlist that automatically refreshes with a random selection of her old tracks every day." in
       create_playlist sp playlist_name description false
     else
       print ("✅ Found existing playlist: " +:+ playlist_name) ;;;
       ret (default "" playlist_id)) ;;
  track_uris <-
    with_rng (filter_tracks_by_play_count os
                "final_filtered_tracks_with_uri.csv") ;;
  replace_tracks sp playlist_id track_uris ;;;
  print ("✅ Playlist update complete. Listen to it here: https://open.spotify.com/playlist/"
         +:+ playlist_id).

End Functions.

(** ** A reference service

    The service keeps the user's playlist collection the way it serves it:
    the first page and the pages behind the [next] URLs.  A new playlist
    goes to the front of the first page; replacing or adding items acts on
    the playlist with the given id wherever it is stored, and an unknown id
    is answered with status 404. *)

Record web : Type := mkWeb {
  web_user : string;
  web_first : page;
  web_pages : gmap string page;
  web_created : nat;
  web_token : string
}.

Definition has_id (playlist_id : string) (pl : playlist) : bool :=
  String.eqb (pl_id pl) playlist_id.

Definition knows (w : web) (playlist_id : string) : bool :=
  existsb (has_id playlist_id) (items (web_first w))
  || existsb (λ kp, existsb (has_id playlist_id) (items kp.2))
             (map_to_list (web_pages w)).

Definition update_playlist (playlist_id : string)
    (f : list string → list string) (pl : playlist) : playlist :=
  if has_id playlist_id pl then
    mkPlaylist (pl_id pl) (pl_name pl) (pl_description pl) (pl_public pl)
               (f (pl_tracks pl)) (pl_external_url pl)
  else pl.

Definition update_page (playlist_id : string)
    (f : list string → list string) (p : page) : page :=
  mkPage (update_playlist playlist_id f <$> items p) (next p).

(** The service after items of a playlist were rewritten by [f]. *)
Definition with_tracks (playlist_id : string)
    (f : list string → list string) (w : web) : web :=
  mkWeb (web_user w)
        (update_page playlist_id f (web_first w))
        (update_page playlist_id f <$> web_pages w)
        (web_created w) (web_token w).

Definition update_tracks (playlist_id : string)
    (f : list string → list string) : M web unit :=
  λ w, if knows w playlist_id then (Ret (), with_tracks playlist_id f w)
       else (Raise (SpotifyException 404), w).

Definition new_playlist (w : web) (name : string) (public : bool)
    (description : string) : playlist :=
  let i := "new" +:+ pretty (web_created w) in
  mkPlaylist i name description public []
             ("https://open.spotify.com/playlist/" +:+ i).

(** The service after playlist [pl] was created. *)
Definition with_new_playlist (pl : playlist) (w : web) : web :=
  mkWeb (web_user w)
        (mkPage (pl :: items (web_first w)) (next (web_first w)))
        (web_pages w) (S (web_created w)) (web_token w).

Definition ref_user_playlist_create (user name : string) (public : bool)
    (description : string) : M web playlist :=
  λ w, if String.eqb user (web_user w) then
         let pl := new_playlist w name public description in
         (Ret pl, with_new_playlist pl w)
       else (Raise (SpotifyException 403), w).

Definition ref_get (url : string) : M web page :=
  λ w, match web_pages w !! url with
       | Some p => (Ret p, w)
       | None => (Raise (SpotifyException 404), w)
       end.

#[export] Instance RefSpotify : SpotifyClient web := {
  web_refresh_access_token _ _ := λ w, (Ret (mkTokenInfo (web_token w)), w);
  web_me _ := λ w, (Ret (mkUser (web_user w)), w);
  web_current_user_playlists _ := λ w, (Ret (web_first w), w);
  web_get _ url := ref_get url;
  web_user_playlist_create _ user name public description :=
    ref_user_playlist_create user name public description;
  web_playlist_replace_items _ playlist_id uris :=
    update_tracks playlist_id (λ _, uris);
  web_playlist_add_items _ playlist_id uris :=
    update_tracks playlist_id (λ old, old ++ uris)
}.

(** ** Vocabulary of the statements *)

(** [rows] are the rows found at [n] pairwise distinct positions of
    [population]: a sample of size [n] drawn from it without
    replacement. *)
Definition sampled_from (n : nat) (population : DataFrame)
    (rows : list row) : Prop :=
  ∃ locs : list nat,
    length locs = n ∧ NoDup locs
    ∧ Forall2 (λ i r, population !! i = Some r) locs rows.

Inductive stratum : Type := High | Medium | Low.

(** The stratum a play count falls in. *)
Definition stratum_of (p : Z) : stratum :=
  if decide (10 ≤ p)%Z then High
  else if decide (5 ≤ p)%Z then Medium
  else Low.

(** The stratum that position [i] of the selector's output belongs to when
    the output is laid out high, medium, low in blocks of ten. *)
Definition block_of (i : nat) : stratum :=
  match i `div` 10 with
  | 0 => High
  | 1 => Medium
  | _ => Low
  end.

(** ** Concrete inputs

    A data set of 45 tracks whose play counts run through 0..14 three
    times (15 rows in each stratum), a data set with only 8 rows of ten or
    more plays, and a fixed sequence of raw draws. *)

Definition example_track (n : nat) (p : Z) : row :=
  mkRow ("spotify:track:" +:+ pretty n) p.

Definition example_df : DataFrame :=
  (λ n, example_track n (Z.of_nat (n `mod` 15))) <$> seq 0 45.

Definition short_df : DataFrame :=
  (λ n, example_track n (Z.of_nat (n `mod` 12))) <$> seq 0 48.

Definition example_rng : RandomState := mkRandomState (λ i, 7 * i + 3) 0.

Definition CSV_FILE : string := "final_filtered_tracks_with_uri.csv".

Definition example_os : os_state :=
  mkOs {[ "SPOTIFY_ACCESS_TOKEN" := "BQD-token" ]}
       {[ CSV_FILE := Csv example_df ]}.

Definition short_os : os_state :=
  mkOs {[ "SPOTIFY_ACCESS_TOKEN" := "BQD-token" ]}
       {[ CSV_FILE := Csv short_df ]}.

(** A run leaves the service alone: it logs no remote call and the service
    state is what it was. *)
Definition skips_remote {W} (c : M (run W) unit) (s : run W) : Prop :=
  calls (c s).2 = calls s ∧ remote (c s).2 = remote s.

(** Two accounts on the reference service.  [capsule_web] serves four
    playlists on two pages, the time capsule with five old tracks among
    them; [bare_web] serves two playlists and no time capsule. *)
Definition example_playlist (i name : string) (tracks : list string)
  : playlist :=
  mkPlaylist i name "" true tracks ("https://open.spotify.com/playlist/" +:+ i).

Definition PAGE2 : string :=
  "https://api.spotify.com/v1/users/abbie/playlists?offset=2&limit=2".

Definition capsule_web : web :=
  mkWeb "abbie"
    (mkPage [ example_playlist "pl1" "Road trip" ["spotify:track:a"];
              example_playlist "pl2" "my time capsule" [] ]
            (Some PAGE2))
    {[ PAGE2 :=
         mkPage [ example_playlist "pl3" "My time capsule"
                    ["old1"; "old2"; "old3"; "old4"; "old5"];
                  example_playlist "pl4" "Focus" ["spotify:track:b"] ]
                None ]}
    0 "BQD-refreshed".

Definition bare_web : web :=
  mkWeb "abbie"
    (mkPage [ example_playlist "pl1" "Road trip" ["spotify:track:a"];
              example_playlist "pl2" "my time capsule" [] ]
            None)
    ∅ 0 "BQD-refreshed".

Definition example_sp : Spotify := mkSpotify "BQD-token".

Definition start (w : web) : run web := mkRun w example_rng [] [].

(** Environments for the credential resolver: client id, client secret
    and refresh token set and no access token; and nothing set at all. *)
Definition refresh_env_os : os_state :=
  mkOs {[ "SPOTIFY_CLIENT_ID" := "0a1b2c";
          "SPOTIFY_CLIENT_SECRET" := "s3cr3t";
          "SPOTIFY_REFRESH_TOKEN" := "AQA-refresh" ]}
       {[ CSV_FILE := Csv example_df ]}.

Definition empty_os : os_state := mkOs ∅ ∅.

(** The pages a traversal visits on the reference service: starting from
    page [p], following the [next] URLs through the stored pages, the
    pages visited are [ps], and the last of them has no [next].  A
    collection with such a list of pages is a finite paginated
    collection; its playlists in enumeration order are
    [concat (items <$> ps)]. *)
Inductive page_chain (pages : gmap string page) : page → list page → Prop :=
  | chain_last (p : page) :
      truthy_str (next p) = false →
      page_chain pages p [p]
  | chain_next (p : page) (url : string) (q : page) (ps : list page) :
      next p = Some url → url ≠ "" →
      pages !! url = Some q →
      page_chain pages q ps →
      page_chain pages p (p :: ps).

(** The [next] URLs that lead from each page of the list to the one
    after it. *)
Fixpoint links (ps : list page) : list string :=
  match ps with
  | [] => []
  | p :: rest =>
      match rest with
      | [] => []
      | _ :: _ => default "" (next p) :: links rest
      end
  end.

Definition PLAYLIST_NAME : string := "My time capsule".

Definition DESCRIPTION : string :=
  "Abbie's time capsule playlist that automatically refreshes with a random selection of her old tracks every day.".

(** The calls a run has added to the log of [s] by the time it is in
    state [s']. *)
Definition new_calls {W} (s s' : run W) : list call :=
  drop (length (calls s)) (calls s').

(** Between [s] and [s'] no playlist was created or modified: the service
    state is the same and no mutating call was logged. *)
Definition no_mutation {W} (s s' : run W) : Prop :=
  remote s' = remote s
  ∧ Forall (λ c, is_mutation c = false) (new_calls s s').

(** ** Further vocabulary and inputs *)

#[export] Instance row_inhabited : Inhabited row := populate (mkRow "" 0).

(** The URIs the selector returns on [example_df] with [example_rng]. *)
Definition example_uris : list string :=
  Eval vm_compute in
    match (filter_tracks_by_play_count example_os CSV_FILE example_rng).1 with
    | Ret uris => uris
    | _ => []
    end.

(** A tokens file as [spotify_auth.py] leaves it, and one that lacks its
    refresh token. *)
Definition token_file : gmap string string :=
  {[ "client_id" := "0a1b2c";
     "client_secret" := "s3cr3t";
     "redirect_uri" := "http://localhost:8888/callback";
     "refresh_token" := "AQA-stored" ]}.

Definition partial_token_file : gmap string string :=
  {[ "client_id" := "0a1b2c";
     "client_secret" := "s3cr3t";
     "redirect_uri" := "http://localhost:8888/callback" ]}.


Definition partial_file_os : os_state :=
  mkOs ∅ {[ TOKEN_PATH := Json partial_token_file ]}.

(** Everything set at once: access token, the three refresh credentials
    and a tokens file. *)
Definition full_os : os_state :=
  mkOs {[ "SPOTIFY_ACCESS_TOKEN" := "BQD-token";
          "SPOTIFY_CLIENT_ID" := "0a1b2c";
          "SPOTIFY_CLIENT_SECRET" := "s3cr3t";
          "SPOTIFY_REFRESH_TOKEN" := "AQA-refresh" ]}
       {[ TOKEN_PATH := Json token_file ]}.

(** An account whose only page names itself as the next page, and one
    whose first page names a next page the service does not serve. *)
Definition loop_page : page :=
  mkPage [ example_playlist "pl1" "Road trip" ["spotify:track:a"] ]
         (Some PAGE2).

Definition loop_web : web :=
  mkWeb "abbie" loop_page {[ PAGE2 := loop_page ]} 0 "BQD-refreshed".

Definition dangling_web : web :=
  mkWeb "abbie" loop_page ∅ 0 "BQD-refreshed".

(** At most one replacement, of 30 URIs, for playlist [playlist_id]. *)
Definition replaces_once (playlist_id : string) (cs : list call) : Prop :=
  cs = []
  ∨ ∃ uris, cs = [Call_playlist_replace_items playlist_id uris]
            ∧ length uris = 30.

(** The refresh credentials in the environment next to a complete tokens
    file, and no access token. *)
Definition shadowed_os : os_state :=
  mkOs {[ "SPOTIFY_CLIENT_ID" := "0a1b2c";
          "SPOTIFY_CLIENT_SECRET" := "s3cr3t";
          "SPOTIFY_REFRESH_TOKEN" := "AQA-refresh" ]}
       {[ TOKEN_PATH := Json token_file; CSV_FILE := Csv example_df ]}.



Definition empty_id_partial_file : gmap string string :=
  <["client_id" := ""]> partial_token_file.

Definition empty_id_partial_os : os_state :=
  mkOs ∅ {[ TOKEN_PATH := Json empty_id_partial_file ]}.

(** * Properties *)

(** ** Sampling without replacement *)

Section Sampling.

Lemma insert_swap_head (t : list nat) (j h b : nat) :
  t !! j = Some b → b :: <[j := h]> t ≡ₚ h :: t.
Proof.
  revert j. induction t as [|c t IH]; intros [|j] Hj; simplify_eq/=.
  - apply Permutation_swap.
  - rewrite (Permutation_swap c b), (IH _ Hj). apply Permutation_swap.
Qed.

Lemma swap_Permutation (i j : nat) (x : list nat) : swap i j x ≡ₚ x.
Proof.
  unfold swap. destruct (x !! i) as [a|] eqn:Hi; [|done].
  destruct (x !! j) as [b|] eqn:Hj; [|done].
  revert i j Hi Hj. induction x as [|h t IH]; intros i j Hi Hj; [done|].
  destruct i as [|i], j as [|j]; simplify_eq/=.
  - done.
  - by apply insert_swap_head.
  - by apply insert_swap_head.
  - f_equiv. by apply IH.
Qed.

Lemma shuffle_from_Permutation (i : nat) (x : list nat) (g : RandomState) :
  ∃ x' g', shuffle_from i x g = (Ret x', g') ∧ x' ≡ₚ x.
Proof.
  revert x g. induction i as [|i IH]; intros x g.
  - by exists x, g.
  - cbn [shuffle_from]. unfold bind, random_interval.
    destruct (IH (swap (S i) (draws g (pos g) `mod` S (S i)) x)
                 {| draws := draws g; pos := S (pos g) |})
      as (x' & g' & Hrun & Hperm).
    exists x', g'. split; [exact Hrun|].
    by rewrite Hperm, swap_Permutation.
Qed.

Lemma permutation_spec (n : nat) (g : RandomState) :
  ∃ idx g', permutation n g = (Ret idx, g') ∧ idx ≡ₚ seq 0 n.
Proof. apply shuffle_from_Permutation. Qed.

(** Enough population: [choice] returns [size] distinct positions. *)
Lemma choice_ok (pop_size size : nat) (g : RandomState) :
  size ≤ pop_size →
  ∃ idx g', choice pop_size size g = (Ret idx, g')
    ∧ length idx = size ∧ NoDup idx ∧ Forall (λ i, i < pop_size) idx.
Proof.
  intros Hle. unfold choice.
  replace ((pop_size =? 0) && (0 <? size)) with false; last first.
  { symmetry. apply andb_false_iff.
    destruct (Nat.eqb_spec pop_size 0); [|by left].
    right. apply Nat.ltb_ge. lia. }
  replace (pop_size <? size) with false
    by (symmetry; apply Nat.ltb_ge; lia).
  destruct (permutation_spec pop_size g) as (idx & g' & Hrun & Hperm).
  unfold bind. rewrite Hrun. exists (take size idx), g'.
  assert (Hlen : length idx = pop_size)
    by (by rewrite Hperm, length_seq).
  split; [done|]. split; [rewrite length_take; lia|]. split.
  - apply (sublist_NoDup _ idx); [|apply sublist_take].
    rewrite Hperm. apply NoDup_seq.
  - apply Forall_take, Forall_forall. intros i Hi.
    rewrite Hperm in Hi. apply elem_of_seq in Hi. lia.
Qed.

(** Too small a population: [choice] raises [ValueError]. *)
Lemma choice_raises (pop_size size : nat) (g : RandomState) :
  pop_size < size →
  ∃ msg, choice pop_size size g = (Raise (ValueError msg), g).
Proof.
  intros Hlt. unfold choice.
  destruct ((pop_size =? 0) && (0 <? size)); [by eexists|].
  replace (pop_size <? size) with true
    by (symmetry; apply Nat.ltb_lt; lia).
  by eexists.
Qed.

End Sampling.

(** ** The track selector *)

Section Selector.

Lemma DataFrame_sample_ok (n : nat) (df : DataFrame) (g : RandomState) :
  n ≤ length df →
  ∃ rows g', DataFrame_sample n df g = (Ret rows, g')
    ∧ sampled_from n df rows.
Proof.
  intros Hle. unfold DataFrame_sample, bind.
  destruct (choice_ok (length df) n g Hle)
    as (locs & g' & -> & Hlen & Hnd & Hbound).
  assert (Hsome : is_Some (mapM (λ i, df !! i) locs)).
  { apply mapM_is_Some. eapply Forall_impl; [exact Hbound|].
    intros i Hi. by apply lookup_lt_is_Some. }
  destruct Hsome as [rows Hrows].
  exists rows, g'. unfold lift_outcome, DataFrame_take. rewrite Hrows.
  split; [done|]. exists locs. by rewrite <- mapM_Some.
Qed.

Lemma DataFrame_sample_raises (n : nat) (df : DataFrame) (g : RandomState) :
  length df < n →
  ∃ msg, DataFrame_sample n df g = (Raise (ValueError msg), g).
Proof.
  intros Hlt. unfold DataFrame_sample, bind.
  destruct (choice_raises (length df) n g Hlt) as [msg ->]. by exists msg.
Qed.

Lemma sampled_from_length n population rows :
  sampled_from n population rows → length rows = n.
Proof.
  intros (locs & Hlen & _ & Hall). by rewrite <- (Forall2_length _ _ _ Hall).
Qed.

Lemma sampled_from_elem_of n population rows r :
  sampled_from n population rows → r ∈ rows → r ∈ population.
Proof.
  intros (locs & _ & _ & Hall) Hr.
  apply list_elem_of_lookup in Hr as [k Hk].
  destruct (Forall2_lookup_r _ _ _ _ _ Hall Hk) as (i & _ & Hi).
  by eapply list_elem_of_lookup_2.
Qed.

(** The selector unfolded on a readable CSV file whose three samples
    succeed. *)
Lemma selector_run os csv_file df g s1 g1 s2 g2 s3 g3 :
  files os !! csv_file = Some (Csv df) →
  DataFrame_sample 10 (high df) g = (Ret s1, g1) →
  DataFrame_sample 10 (medium df) g1 = (Ret s2, g2) →
  DataFrame_sample 10 (low df) g2 = (Ret s3, g3) →
  filter_tracks_by_play_count os csv_file g
  = (Ret ((uri <$> s1) ++ (uri <$> s2) ++ (uri <$> s3)), g3).
Proof.
  intros Hf H1 H2 H3.
  unfold filter_tracks_by_play_count, bind, lift_outcome, read_csv.
  rewrite Hf, H1, H2, H3. unfold ret. by rewrite <- (assoc_L (++)).
Qed.

(** A sampling call either returns or raises [ValueError]. *)
Lemma DataFrame_sample_outcome n df g :
  (∃ rows g', DataFrame_sample n df g = (Ret rows, g'))
  ∨ (∃ msg, DataFrame_sample n df g = (Raise (ValueError msg), g)).
Proof.
  destruct (decide (n ≤ length df)) as [Hle|Hgt].
  - left. destruct (DataFrame_sample_ok n df g Hle) as (rows & g' & Hok & _).
    by exists rows, g'.
  - right. apply DataFrame_sample_raises. lia.
Qed.

Lemma DataFrame_sample_inv_length n df g rows g' :
  DataFrame_sample n df g = (Ret rows, g') → n ≤ length df.
Proof.
  intros Hrun. destruct (decide (n ≤ length df)) as [Hle|Hgt]; [done|].
  destruct (DataFrame_sample_raises n df g) as [msg Hr]; [lia|].
  rewrite Hr in Hrun. discriminate Hrun.
Qed.

Lemma selector_ok os csv_file df g :
  files os !! csv_file = Some (Csv df) →
  10 ≤ length (high df) →
  10 ≤ length (medium df) →
  10 ≤ length (low df) →
  ∃ uris g',
    filter_tracks_by_play_count os csv_file g = (Ret uris, g')
    ∧ length uris = 30.
Proof.
  intros Hf Hh Hm Hl.
  destruct (DataFrame_sample_ok 10 (high df) g Hh) as (hi & g1 & H1 & S1).
  destruct (DataFrame_sample_ok 10 (medium df) g1 Hm) as (mi & g2 & H2 & S2).
  destruct (DataFrame_sample_ok 10 (low df) g2 Hl) as (lo & g3 & H3 & S3).
  eexists _, g3. split; [by eapply selector_run|].
  rewrite !length_app, !length_fmap.
  by rewrite (sampled_from_length _ _ _ S1), (sampled_from_length _ _ _ S2),
    (sampled_from_length _ _ _ S3).
Qed.

(** A stratum that is too small makes the selector raise. *)
Lemma selector_short os csv_file df g :
  files os !! csv_file = Some (Csv df) →
  length (high df) < 10 ∨ length (medium df) < 10 ∨ length (low df) < 10 →
  ∃ msg g',
    filter_tracks_by_play_count os csv_file g = (Raise (ValueError msg), g').
Proof.
  intros Hf Hshort.
  unfold filter_tracks_by_play_count, bind at 1, lift_outcome, read_csv.
  rewrite Hf. unfold bind at 1.
  destruct (DataFrame_sample_outcome 10 (high df) g)
    as [(hi & g1 & H1)|[msg H1]]; rewrite H1; [|by exists msg, g].
  apply DataFrame_sample_inv_length in H1. unfold bind at 1.
  destruct (DataFrame_sample_outcome 10 (medium df) g1)
    as [(mi & g2 & H2)|[msg H2]]; rewrite H2; [|by exists msg, g1].
  apply DataFrame_sample_inv_length in H2. unfold bind at 1.
  destruct (DataFrame_sample_raises 10 (low df) g2) as [msg ->]; [lia|].
  by exists msg, g2.
Qed.

End Selector.

Section SelectorClaims.

Lemma high_spec (df : DataFrame) (r : row) :
  r ∈ high df ↔ r ∈ df ∧ (10 ≤ plays r)%Z.
Proof. unfold high. rewrite list_elem_of_filter. tauto. Qed.

Lemma medium_spec (df : DataFrame) (r : row) :
  r ∈ medium df ↔ r ∈ df ∧ (5 ≤ plays r < 10)%Z.
Proof. unfold medium. rewrite list_elem_of_filter. tauto. Qed.

Lemma low_spec (df : DataFrame) (r : row) :
  r ∈ low df ↔ r ∈ df ∧ (plays r < 5)%Z.
Proof. unfold low. rewrite list_elem_of_filter. tauto. Qed.

Lemma sampled_from_Forall n population rows (P : row → Prop) :
  sampled_from n population rows →
  (∀ r, r ∈ population → P r) → Forall P rows.
Proof.
  intros Hs HP. apply Forall_forall. intros r Hr.
  eauto using sampled_from_elem_of.
Qed.

(** C1: on a data set whose three strata (plays >= 10, 5 <= plays < 10,
    plays < 5) each hold at least 10 rows, the selector returns 30 URIs:
    the URIs of 10 rows of each stratum, the 10 rows taken at pairwise
    distinct positions of that stratum (without replacement) and all of
    them rows of that stratum. *)
Theorem selector_returns_thirty os csv_file df g :
  files os !! csv_file = Some (Csv df) →
  10 ≤ length (high df) →
  10 ≤ length (medium df) →
  10 ≤ length (low df) →
  ∃ hi mi lo g',
    filter_tracks_by_play_count os csv_file g
    = (Ret ((uri <$> hi) ++ (uri <$> mi) ++ (uri <$> lo)), g')
    ∧ length ((uri <$> hi) ++ (uri <$> mi) ++ (uri <$> lo)) = 30
    ∧ length hi = 10 ∧ length mi = 10 ∧ length lo = 10
    ∧ sampled_from 10 (high df) hi
    ∧ sampled_from 10 (medium df) mi
    ∧ sampled_from 10 (low df) lo
    ∧ Forall (λ r, r ∈ df ∧ (10 ≤ plays r)%Z) hi
    ∧ Forall (λ r, r ∈ df ∧ (5 ≤ plays r < 10)%Z) mi
    ∧ Forall (λ r, r ∈ df ∧ (plays r < 5)%Z) lo.
Proof.
  intros Hf Hh Hm Hl.
  destruct (DataFrame_sample_ok 10 (high df) g Hh) as (hi & g1 & H1 & S1).
  destruct (DataFrame_sample_ok 10 (medium df) g1 Hm) as (mi & g2 & H2 & S2).
  destruct (DataFrame_sample_ok 10 (low df) g2 Hl) as (lo & g3 & H3 & S3).
  exists hi, mi, lo, g3.
  pose proof (sampled_from_length _ _ _ S1) as L1.
  pose proof (sampled_from_length _ _ _ S2) as L2.
  pose proof (sampled_from_length _ _ _ S3) as L3.
  split; [by eapply selector_run|].
  split; [rewrite !length_app, !length_fmap; lia|].
  repeat (split; [done|]).
  split; [|split].
  - eapply sampled_from_Forall; [exact S1|]. intros r. apply high_spec.
  - eapply sampled_from_Forall; [exact S2|]. intros r. apply medium_spec.
  - eapply sampled_from_Forall; [exact S3|]. intros r. apply low_spec.
Qed.

(** C2: on a data set in which some stratum holds fewer than 10 rows the
    selector does not return: it raises the [ValueError] of the sampling
    call (the failure the specification names InsufficientData). *)
Theorem selector_insufficient_data os csv_file df g :
  files os !! csv_file = Some (Csv df) →
  length (high df) < 10 ∨ length (medium df) < 10 ∨ length (low df) < 10 →
  ∃ msg g',
    filter_tracks_by_play_count os csv_file g = (Raise (ValueError msg), g').
Proof.
  intros Hf Hshort.
  unfold filter_tracks_by_play_count, bind at 1, lift_outcome, read_csv.
  rewrite Hf.
  destruct (decide (length (high df) < 10)) as [Hh|Hh].
  { destruct (DataFrame_sample_raises 10 _ g Hh) as [msg Hr].
    exists msg, g. unfold bind. by rewrite Hr. }
  destruct (DataFrame_sample_ok 10 (high df) g) as (hi & g1 & H1 & _); [lia|].
  unfold bind at 1. rewrite H1.
  destruct (decide (length (medium df) < 10)) as [Hm|Hm].
  { destruct (DataFrame_sample_raises 10 _ g1 Hm) as [msg Hr].
    exists msg, g1. unfold bind. by rewrite Hr. }
  destruct (DataFrame_sample_ok 10 (medium df) g1) as (mi & g2 & H2 & _);
    [lia|].
  unfold bind at 1. rewrite H2.
  assert (Hl : length (low df) < 10) by lia.
  destruct (DataFrame_sample_raises 10 _ g2 Hl) as [msg Hr].
  exists msg, g2. unfold bind. by rewrite Hr.
Qed.

Lemma block_of_cases (i : nat) :
  (i < 10 ∧ block_of i = High)
  ∨ (10 ≤ i < 20 ∧ block_of i = Medium)
  ∨ (20 ≤ i ∧ block_of i = Low).
Proof.
  unfold block_of.
  pose proof (Nat.div_mod_eq i 10) as Hdm.
  pose proof (Nat.mod_upper_bound i 10) as Hub.
  revert Hdm. generalize (i `div` 10). intros [|[|k]] Hdm;
    [left|right; left|right; right]; (split; [lia|done]).
Qed.

Lemma stratum_of_high p : (10 ≤ p)%Z → stratum_of p = High.
Proof. intros. unfold stratum_of. by rewrite decide_True. Qed.

Lemma stratum_of_medium p : (5 ≤ p < 10)%Z → stratum_of p = Medium.
Proof.
  intros. unfold stratum_of.
  rewrite decide_False by lia. by rewrite decide_True by lia.
Qed.

Lemma stratum_of_low p : (p < 5)%Z → stratum_of p = Low.
Proof. intros. unfold stratum_of. by rewrite !decide_False by lia. Qed.

(** C7: on a qualifying data set the output is the 30 URIs of the
    sample of the high stratum (10 rows), then those of the medium
    stratum (10 rows), then those of the low stratum (10 rows), in the
    order the three sampling calls returned them: positions 0..9 are the
    high sample, 10..19 the medium sample, 20..29 the low sample, and
    position [i] of the output holds the URI of a row whose play count
    lies in the stratum of block [i / 10]. *)
Theorem selector_stratum_order os csv_file df g :
  files os !! csv_file = Some (Csv df) →
  10 ≤ length (high df) →
  10 ≤ length (medium df) →
  10 ≤ length (low df) →
  ∃ s1 g1 s2 g2 s3 g3 uris,
    DataFrame_sample 10 (high df) g = (Ret s1, g1)
    ∧ DataFrame_sample 10 (medium df) g1 = (Ret s2, g2)
    ∧ DataFrame_sample 10 (low df) g2 = (Ret s3, g3)
    ∧ filter_tracks_by_play_count os csv_file g = (Ret uris, g3)
    ∧ uris = (uri <$> s1) ++ (uri <$> s2) ++ (uri <$> s3)
    ∧ length uris = 30
    ∧ (length s1 = 10 ∧ sampled_from 10 (high df) s1)
    ∧ (length s2 = 10 ∧ sampled_from 10 (medium df) s2)
    ∧ (length s3 = 10 ∧ sampled_from 10 (low df) s3)
    ∧ take 10 uris = uri <$> s1
    ∧ take 10 (drop 10 uris) = uri <$> s2
    ∧ drop 20 uris = uri <$> s3
    ∧ ∀ i u, uris !! i = Some u →
        ∃ r, r ∈ df ∧ uri r = u ∧ stratum_of (plays r) = block_of i.
Proof.
  intros Hf Hh Hm Hl.
  destruct (DataFrame_sample_ok 10 (high df) g Hh) as (s1 & g1 & H1 & S1).
  destruct (DataFrame_sample_ok 10 (medium df) g1 Hm) as (s2 & g2 & H2 & S2).
  destruct (DataFrame_sample_ok 10 (low df) g2 Hl) as (s3 & g3 & H3 & S3).
  exists s1, g1, s2, g2, s3, g3, ((uri <$> s1) ++ (uri <$> s2) ++ (uri <$> s3)).
  pose proof (sampled_from_length _ _ _ S1) as L1.
  pose proof (sampled_from_length _ _ _ S2) as L2.
  pose proof (sampled_from_length _ _ _ S3) as L3.
  assert (L1' : length (uri <$> s1) = 10) by by rewrite length_fmap.
  assert (L2' : length (uri <$> s2) = 10) by by rewrite length_fmap.
  do 3 (split; [done|]).
  split; [by eapply selector_run|]. split; [done|].
  split; [rewrite !length_app, !length_fmap; lia|].
  do 3 (split; [done|]).
  split; [by rewrite take_app_length'|].
  split; [by rewrite drop_app_length', take_app_length'|].
  split.
  { rewrite (assoc_L (++)), drop_app_length'; [done|].
    rewrite length_app. lia. }
  intros i u Hi.
  destruct (block_of_cases i) as [[Hlt ->]|[[Hlt ->]|[Hlt ->]]].
  - rewrite lookup_app_l in Hi by lia.
    apply list_lookup_fmap_Some in Hi as (r & -> & Hr).
    apply list_elem_of_lookup_2 in Hr.
    apply (sampled_from_elem_of _ _ _ _ S1), high_spec in Hr as [Hin Hp].
    exists r. by rewrite stratum_of_high.
  - rewrite lookup_app_r, lookup_app_l in Hi by lia.
    apply list_lookup_fmap_Some in Hi as (r & -> & Hr).
    apply list_elem_of_lookup_2 in Hr.
    apply (sampled_from_elem_of _ _ _ _ S2), medium_spec in Hr as [Hin Hp].
    exists r. by rewrite stratum_of_medium.
  - rewrite lookup_app_r, lookup_app_r in Hi by lia.
    apply list_lookup_fmap_Some in Hi as (r & -> & Hr).
    apply list_elem_of_lookup_2 in Hr.
    apply (sampled_from_elem_of _ _ _ _ S3), low_spec in Hr as [Hin Hp].
    exists r. by rewrite stratum_of_low.
Qed.

End SelectorClaims.

Section SelectorWitnesses.

(** Evaluates the hypotheses of the selector theorems on [example_df]. *)
Local Ltac example_strata Hf Hh Hm Hl :=
  assert (Hf : files example_os !! CSV_FILE = Some (Csv example_df))
    by (vm_compute; reflexivity);
  assert (Hh : 10 ≤ length (high example_df)) by (vm_compute; lia);
  assert (Hm : 10 ≤ length (medium example_df)) by (vm_compute; lia);
  assert (Hl : 10 ≤ length (low example_df)) by (vm_compute; lia).

Lemma selector_returns_thirty_witness :
  10 ≤ length (high example_df)
  ∧ 10 ≤ length (medium example_df)
  ∧ 10 ≤ length (low example_df)
  ∧ ∃ uris g',
      filter_tracks_by_play_count example_os CSV_FILE example_rng
      = (Ret uris, g')
      ∧ length uris = 30.
Proof.
  example_strata Hf Hh Hm Hl.
  do 3 (split; [assumption|]).
  destruct (selector_returns_thirty example_os CSV_FILE example_df
              example_rng Hf Hh Hm Hl)
    as (hi & mi & lo & g' & Hrun & Hlen & _).
  exists ((uri <$> hi) ++ (uri <$> mi) ++ (uri <$> lo)), g'.
  split; assumption.
Defined.

Lemma selector_insufficient_data_witness :
  length (high short_df) < 10
  ∧ ∃ msg g',
      filter_tracks_by_play_count short_os CSV_FILE example_rng
      = (Raise (ValueError msg), g').
Proof.
  assert (Hshort : length (high short_df) < 10) by (vm_compute; lia).
  split; [exact Hshort|].
  apply (selector_insufficient_data short_os CSV_FILE short_df example_rng).
  - vm_compute; reflexivity.
  - left. exact Hshort.
Defined.

Lemma selector_stratum_order_witness :
  ∃ uris g',
    filter_tracks_by_play_count example_os CSV_FILE example_rng
    = (Ret uris, g')
    ∧ length uris = 30
    ∧ ∀ i u, uris !! i = Some u →
        ∃ r, r ∈ example_df ∧ uri r = u
             ∧ stratum_of (plays r) = block_of i.
Proof.
  example_strata Hf Hh Hm Hl.
  destruct (selector_stratum_order example_os CSV_FILE example_df
              example_rng Hf Hh Hm Hl)
    as (s1 & g1 & s2 & g2 & s3 & g3 & uris & _ & _ & _ & Hrun & _ & Hlen
        & _ & _ & _ & _ & _ & _ & Hpos).
  exists uris, g3. repeat (split; [assumption|]). assumption.
Defined.

End SelectorWitnesses.

(** ** The playlist operations, for every client *)

Section Operations.
Context {W : Type} `{SpotifyClient W}.

(** C10: [add_tracks] with an empty list of URIs returns normally
    without any remote call: the call log and the service state are
    unchanged, only the line "No tracks to add." is printed. *)
Theorem add_tracks_empty_skips (sp : Spotify) (playlist_id : string)
    (s : run W) :
  add_tracks sp playlist_id [] s
  = (Ret (), mkRun (remote s) (rng s) (calls s)
                   (stdout s ++ ["No tracks to add."]))
  ∧ skips_remote (add_tracks sp playlist_id []) s.
Proof. by split. Qed.

(** C4, as the code has it: [replace_tracks] with an empty sequence of
    URIs does not skip the remote call.  It makes exactly one remote
    call, [playlist_replace_items(playlist_id, [])], and the service is
    left in the state that call produces. *)
Theorem replace_tracks_empty_calls (sp : Spotify) (playlist_id : string)
    (s : run W) :
  calls (replace_tracks sp playlist_id [] s).2
  = calls s ++ [Call_playlist_replace_items playlist_id []]
  ∧ remote (replace_tracks sp playlist_id [] s).2
    = (web_playlist_replace_items sp playlist_id [] (remote s)).2.
Proof.
  unfold replace_tracks, bind, sp_playlist_replace_items, request, print.
  destruct (web_playlist_replace_items sp playlist_id [] (remote s))
    as [[[]|e|] w]; by split.
Qed.

End Operations.

(** C4 fails on the code: on an account that has playlist "pl1",
    replacing its tracks by the empty sequence logs a remote call and
    changes the service state. *)
Lemma replace_tracks_empty_not_skipped :
  calls (replace_tracks example_sp "pl1" [] (start capsule_web)).2
  = [Call_playlist_replace_items "pl1" []]
  ∧ remote (replace_tracks example_sp "pl1" [] (start capsule_web)).2
    ≠ capsule_web
  ∧ ¬ skips_remote (replace_tracks example_sp "pl1" []) (start capsule_web).
Proof.
  split; [by vm_compute|]. split.
  - intros Heq. apply (f_equal (λ w, pl_tracks <$> head (items (web_first w))))
      in Heq. vm_compute in Heq. discriminate Heq.
  - intros [Hcalls _]. vm_compute in Hcalls. discriminate Hcalls.
Qed.

(** ** The credential resolver *)

Section Constructor.
Context {S : Type}.

Lemma ensure_value_cases (os : os_state) value env_key env_val :
  (∃ v, ensure_value os value env_key env_val = Ret v)
  ∨ ∃ msg, ensure_value os value env_key env_val
           = Raise (SpotifyOauthError msg).
Proof.
  unfold ensure_value.
  destruct (if truthy_str value then value else getenv os env_val); eauto.
Qed.

(** The constructor returns the object or raises [SpotifyOauthError],
    and touches nothing. *)
Lemma SpotifyOAuth_init_cases (os : os_state) client_id client_secret
    redirect_uri scope (s : S) :
  SpotifyOAuth_init os client_id client_secret redirect_uri scope s
  = (Ret (mkSpotifyOAuth client_id client_secret redirect_uri scope), s)
  ∨ ∃ msg,
      SpotifyOAuth_init os client_id client_secret redirect_uri scope s
      = (Raise (SpotifyOauthError msg), s).
Proof.
  unfold SpotifyOAuth_init, bind, lift_outcome, ret.
  destruct (ensure_value_cases os (Some client_id) "client_id"
              "SPOTIPY_CLIENT_ID") as [[v ->]|[msg ->]]; [|eauto].
  destruct (ensure_value_cases os (Some client_secret) "client_secret"
              "SPOTIPY_CLIENT_SECRET") as [[v' ->]|[msg ->]]; [|eauto].
  destruct (ensure_value_cases os redirect_uri "redirect_uri"
              "SPOTIPY_REDIRECT_URI") as [[v'' ->]|[msg ->]]; eauto.
Qed.

(** Non-empty arguments pass the constructor, whatever the environment. *)
Lemma SpotifyOAuth_init_ok (os : os_state) client_id client_secret
    redirect_uri scope (s : S) :
  client_id ≠ "" → client_secret ≠ "" → redirect_uri ≠ "" →
  SpotifyOAuth_init os client_id client_secret (Some redirect_uri) scope s
  = (Ret (mkSpotifyOAuth client_id client_secret (Some redirect_uri) scope),
     s).
Proof.
  intros Hi%String.eqb_neq Hs%String.eqb_neq Hr%String.eqb_neq.
  unfold SpotifyOAuth_init, bind, lift_outcome, ensure_value, ret. cbn.
  by rewrite Hi, Hs, Hr.
Qed.

Lemma ensure_value_empty_unset (os : os_state) env_key env_val :
  getenv os env_val = None →
  ∃ msg, ensure_value os (Some "") env_key env_val
         = Raise (SpotifyOauthError msg).
Proof. intros Hunset. unfold ensure_value. cbn. rewrite Hunset. eauto. Qed.

(** An empty argument whose [SPOTIPY_] variable is unset is rejected. *)
Lemma SpotifyOAuth_init_rejects (os : os_state) client_id client_secret
    redirect_uri scope (s : S) :
  (client_id = "" ∧ getenv os "SPOTIPY_CLIENT_ID" = None)
  ∨ (client_secret = "" ∧ getenv os "SPOTIPY_CLIENT_SECRET" = None)
  ∨ (redirect_uri = "" ∧ getenv os "SPOTIPY_REDIRECT_URI" = None) →
  ∃ msg,
    SpotifyOAuth_init os client_id client_secret (Some redirect_uri) scope s
    = (Raise (SpotifyOauthError msg), s).
Proof.
  intros Hrej. unfold SpotifyOAuth_init, bind, lift_outcome.
  destruct (ensure_value_cases os (Some client_id) "client_id"
              "SPOTIPY_CLIENT_ID") as [[v E1]|[msg E1]]; rewrite E1; [|eauto].
  destruct (ensure_value_cases os (Some client_secret) "client_secret"
              "SPOTIPY_CLIENT_SECRET") as [[v' E2]|[msg E2]]; rewrite E2;
    [|eauto].
  destruct (ensure_value_cases os (Some redirect_uri) "redirect_uri"
              "SPOTIPY_REDIRECT_URI") as [[v'' E3]|[msg E3]]; rewrite E3;
    [|eauto].
  exfalso. destruct Hrej as [[-> Hn]|[[-> Hn]|[-> Hn]]].
  - destruct (ensure_value_empty_unset os "client_id" _ Hn) as [msg Hm].
    congruence.
  - destruct (ensure_value_empty_unset os "client_secret" _ Hn) as [msg Hm].
    congruence.
  - destruct (ensure_value_empty_unset os "redirect_uri" _ Hn) as [msg Hm].
    congruence.
Qed.

(** The constructor only rejects an empty argument. *)
Lemma SpotifyOAuth_init_raise_empty (os : os_state) client_id client_secret
    redirect_uri scope (s s' : S) e :
  SpotifyOAuth_init os client_id client_secret (Some redirect_uri) scope s
  = (Raise e, s') →
  client_id = "" ∨ client_secret = "" ∨ redirect_uri = "".
Proof.
  intros Hraise.
  destruct (decide (client_id = "")) as [|Hi]; [by left|].
  destruct (decide (client_secret = "")) as [|Hs]; [by right; left|].
  destruct (decide (redirect_uri = "")) as [|Hr]; [by right; right|].
  rewrite SpotifyOAuth_init_ok in Hraise by done. discriminate Hraise.
Qed.

End Constructor.

Section Credentials.
Context {W : Type} `{SpotifyClient W}.

Lemma redirect_uri_unbound : module_globals !! "redirect_uri" = None.
Proof. by vm_compute. Qed.

(** With no access token and the three refresh credentials present, the
    test of the second strategy reads the unbound name [redirect_uri]. *)
Lemma get_spotify_client_env_refresh (os : os_state) (s : run W) :
  truthy_str (getenv os "SPOTIFY_ACCESS_TOKEN") = false →
  truthy_str (getenv os "SPOTIFY_CLIENT_ID") = true →
  truthy_str (getenv os "SPOTIFY_CLIENT_SECRET") = true →
  truthy_str (getenv os "SPOTIFY_REFRESH_TOKEN") = true →
  get_spotify_client os s = (Raise (NameError "redirect_uri"), s).
Proof.
  intros Ht Hi Hs Hr. unfold get_spotify_client.
  rewrite Ht, Hi, Hs, Hr. cbn [andb]. unfold bind at 1, load_global.
  by rewrite redirect_uri_unbound.
Qed.

(** C6 (evaluation at the failing input): with [SPOTIFY_CLIENT_ID],
    [SPOTIFY_CLIENT_SECRET] and [SPOTIFY_REFRESH_TOKEN] set and no
    [SPOTIFY_ACCESS_TOKEN], the resolver raises [NameError] for
    [redirect_uri] instead of refreshing a token, and so does [main],
    before any remote call. *)
Theorem env_refresh_raises_NameError (fuel : nat) (s : run W) :
  get_spotify_client refresh_env_os s
  = (Raise (NameError "redirect_uri"), s)
  ∧ main fuel refresh_env_os s = (Raise (NameError "redirect_uri"), s).
Proof.
  assert (Hg : get_spotify_client refresh_env_os s
               = (Raise (NameError "redirect_uri"), s))
    by by apply get_spotify_client_env_refresh.
  split; [exact Hg|]. unfold main, bind at 1. by rewrite Hg.
Qed.

(** C8: with no access token, the refresh credentials of the
    environment not all present and no tokens file, the resolver raises
    [FileNotFoundError] (the failure the specification names
    CredentialUnavailable) and the run ends with it; the state of the
    run, and with it the log of remote calls, is untouched. *)
Theorem no_credentials_raises (fuel : nat) (os : os_state) (s : run W) :
  truthy_str (getenv os "SPOTIFY_ACCESS_TOKEN") = false →
  truthy_str (getenv os "SPOTIFY_CLIENT_ID")
    && truthy_str (getenv os "SPOTIFY_CLIENT_SECRET")
    && truthy_str (getenv os "SPOTIFY_REFRESH_TOKEN") = false →
  files os !! TOKEN_PATH = None →
  ∃ msg,
    get_spotify_client os s = (Raise (FileNotFoundError msg), s)
    ∧ main fuel os s = (Raise (FileNotFoundError msg), s)
    ∧ calls (main fuel os s).2 = calls s.
Proof.
  intros Ht Henv Hfile.
  exists "No .spotify_tokens.json file found. Run spotify_auth.py first to authorise or set environment variables.".
  match goal with |- ?G ∧ _ => assert (Hg : G) end.
  { unfold get_spotify_client. rewrite Ht, Henv.
    unfold bind at 1, ret, path_exists. rewrite Hfile.
    rewrite bool_decide_eq_false_2 by (by intros [? ?]).
    reflexivity. }
  split; [exact Hg|].
  match goal with |- ?G ∧ _ => assert (Hm : G) end.
  { unfold main, bind at 1. by rewrite Hg. }
  split; [exact Hm|]. by rewrite Hm.
Qed.

End Credentials.

Lemma no_credentials_raises_witness :
  files empty_os !! TOKEN_PATH = None
  ∧ ∃ msg,
      get_spotify_client empty_os (start capsule_web)
      = (Raise (FileNotFoundError msg), start capsule_web)
      ∧ main 3 empty_os (start capsule_web)
        = (Raise (FileNotFoundError msg), start capsule_web)
      ∧ calls (main 3 empty_os (start capsule_web)).2 = [].
Proof.
  split; [reflexivity|].
  apply (no_credentials_raises 3 empty_os (start capsule_web));
    reflexivity.
Defined.

(** ** Looking a playlist up by name *)

Section Find.

Lemma for_playlist_in_app (l1 l2 : list playlist) (name : string) :
  for_playlist_in (l1 ++ l2) name
  = match for_playlist_in l1 name with
    | Some i => Some i
    | None => for_playlist_in l2 name
    end.
Proof.
  induction l1 as [|pl l1 IH]; [done|]. cbn.
  by destruct (String.eqb (pl_name pl) name).
Qed.

Lemma for_playlist_in_None (l : list playlist) (name : string) :
  for_playlist_in l name = None ↔ Forall (λ q, pl_name q ≠ name) l.
Proof.
  induction l as [|pl l IH]; cbn; [by split|].
  destruct (String.eqb_spec (pl_name pl) name) as [Heq|Hne].
  - split; [done|]. intros Hall. by apply Forall_cons_1 in Hall as [? _].
  - rewrite IH. split; [by constructor|]. by intros [_ ?]%Forall_cons_1.
Qed.

Lemma for_playlist_in_Some (l : list playlist) (name i : string) :
  for_playlist_in l name = Some i
  ↔ ∃ before pl after,
      l = before ++ pl :: after
      ∧ Forall (λ q, pl_name q ≠ name) before
      ∧ pl_name pl = name ∧ pl_id pl = i.
Proof.
  induction l as [|pl l IH]; cbn.
  { split; [done|]. intros (before & ? & ? & Hl & _). by destruct before. }
  destruct (String.eqb_spec (pl_name pl) name) as [Heq|Hne].
  - split.
    + intros [= <-]. by exists [], pl, l.
    + intros ([|b before] & pl' & after & Hl & Hall & Hname & Hid);
        simplify_eq/=; [done|].
      by apply Forall_cons_1 in Hall as [? _].
  - rewrite IH. split.
    + intros (before & pl' & after & -> & Hall & Hname & Hid).
      exists (pl :: before), pl', after. by repeat constructor.
    + intros ([|b before] & pl' & after & Hl & Hall & Hname & Hid);
        simplify_eq/=.
      apply Forall_cons_1 in Hall as [_ Hall]. by exists before, pl', after.
Qed.

Lemma page_chain_head pages p ps :
  page_chain pages p ps → ∃ tl, ps = p :: tl.
Proof. destruct 1; eauto. Qed.

Lemma run_eta {W} (s : run W) :
  s = mkRun (remote s) (rng s) (calls s ++ []) (stdout s).
Proof. destruct s. cbn. by rewrite app_nil_r. Qed.

Lemma while_playlists_None {W} `{SpotifyClient W} fuel sp name :
  while_playlists fuel sp name None = ret None.
Proof. by destruct fuel. Qed.

(** The [while] loop on a finite chain of pages: with one unit of fuel
    per page it returns the first match over all pages, after fetching
    pages only. *)
Lemma while_playlists_chain pages p ps :
  page_chain pages p ps →
  ∀ fuel sp name (s : run web),
    web_pages (remote s) = pages →
    length ps ≤ fuel →
    ∃ cs,
      while_playlists fuel sp name (Some p) s
      = (Ret (for_playlist_in (concat (items <$> ps)) name),
         mkRun (remote s) (rng s) (calls s ++ cs) (stdout s))
      ∧ Forall (λ c, is_mutation c = false) cs
      ∧ (for_playlist_in (concat (items <$> ps)) name = None →
         cs = Call_get <$> links ps).
Proof.
  induction 1 as [p Hlast|p url q ps Hnext Hurl Hq Hchain IH];
    intros [|fuel] sp name s Hpages Hfuel; cbn in Hfuel; try lia.
  - cbn. rewrite app_nil_r.
    destruct (for_playlist_in (items p) name) as [i|] eqn:Hfor.
    + exists []. split; [|done]. unfold ret. by rewrite <- run_eta.
    + rewrite Hlast, while_playlists_None. exists []. split; [|done].
      unfold ret. by rewrite <- run_eta.
  - cbn [while_playlists fmap list_fmap concat].
    rewrite for_playlist_in_app.
    destruct (for_playlist_in (items p) name) as [i|] eqn:Hfor.
    { exists []. split; [|done]. unfold ret. by rewrite <- run_eta. }
    assert (Htruthy : truthy_str (next p) = true).
    { rewrite Hnext. cbn. by apply negb_true_iff, String.eqb_neq. }
    rewrite Htruthy. unfold sp_next. rewrite Htruthy, Hnext.
    change (default "" (Some url)) with url.
    unfold bind, request. cbn [web_get RefSpotify]. unfold ref_get.
    rewrite Hpages, Hq. unfold ret.
    set (s1 := mkRun (remote s) (rng s) (calls s ++ [Call_get url])
                     (stdout s)).
    destruct (IH fuel sp name s1) as (cs & Hrun & Hmut & Hnone);
      [done|lia|].
    exists (Call_get url :: cs). rewrite Hrun. cbn.
    rewrite <- (assoc_L (++)). split; [done|]. split; [by constructor|].
    intros Hn. rewrite (Hnone Hn).
    destruct (page_chain_head _ _ _ Hchain) as [tl ->]. cbn.
    by rewrite Hnext.
Qed.

(** [playlist_exists] on a finite chain of pages. *)
Lemma playlist_exists_chain fuel sp name (s : run web) ps :
  page_chain (web_pages (remote s)) (web_first (remote s)) ps →
  length ps ≤ fuel →
  ∃ cs,
    playlist_exists fuel sp name s
    = (Ret (for_playlist_in (concat (items <$> ps)) name),
       mkRun (remote s) (rng s)
             (calls s ++ Call_current_user_playlists :: cs) (stdout s))
    ∧ Forall (λ c, is_mutation c = false) cs
    ∧ (for_playlist_in (concat (items <$> ps)) name = None →
       cs = Call_get <$> links ps).
Proof.
  intros Hchain Hfuel. unfold playlist_exists, bind at 1.
  unfold sp_current_user_playlists, request. cbn.
  set (s1 := mkRun (remote s) (rng s)
                   (calls s ++ [Call_current_user_playlists]) (stdout s)).
  destruct (while_playlists_chain _ _ _ Hchain fuel sp name s1)
    as (cs & Hrun & Hmut & Hnone); [done..|].
  exists cs. rewrite Hrun. cbn. by rewrite <- (assoc_L (++)).
Qed.

(** C5: on a finite paginated collection (the chain of pages [ps] that
    starts at the first page and ends at the page without [next]),
    [playlist_exists] returns, given one unit of fuel per page.  Its
    result is the id of the first playlist, in enumeration order over
    all pages, whose name equals [name] exactly, and [None] exactly
    when no playlist of any page has that name; in that case every
    page of the chain has been fetched.  The service is not changed. *)
Theorem playlist_exists_first_match fuel sp name (s : run web) ps :
  page_chain (web_pages (remote s)) (web_first (remote s)) ps →
  length ps ≤ fuel →
  ∃ result cs,
    playlist_exists fuel sp name s
    = (Ret result,
       mkRun (remote s) (rng s)
             (calls s ++ Call_current_user_playlists :: cs) (stdout s))
    ∧ (∀ i, result = Some i
            ↔ ∃ before pl after,
                concat (items <$> ps) = before ++ pl :: after
                ∧ Forall (λ q, pl_name q ≠ name) before
                ∧ pl_name pl = name ∧ pl_id pl = i)
    ∧ (result = None
       ↔ Forall (λ q, pl_name q ≠ name) (concat (items <$> ps)))
    ∧ (result = None → cs = Call_get <$> links ps)
    ∧ Forall (λ c, is_mutation c = false) cs.
Proof.
  intros Hchain Hfuel.
  destruct (playlist_exists_chain fuel sp name s ps Hchain Hfuel)
    as (cs & Hrun & Hmut & Hnone).
  exists (for_playlist_in (concat (items <$> ps)) name), cs.
  split; [exact Hrun|]. split; [intros i; apply for_playlist_in_Some|].
  split; [apply for_playlist_in_None|]. by split.
Qed.

End Find.

Lemma capsule_web_chain :
  ∃ p2,
    web_pages capsule_web !! PAGE2 = Some p2
    ∧ page_chain (web_pages capsule_web) (web_first capsule_web)
                 [web_first capsule_web; p2].
Proof.
  eexists. split; [by vm_compute|].
  eapply chain_next; [reflexivity|done|by vm_compute|].
  by apply chain_last.
Defined.

Lemma playlist_exists_first_match_witness :
  ∃ ps result cs,
    page_chain (web_pages capsule_web) (web_first capsule_web) ps
    ∧ length ps ≤ 2
    ∧ playlist_exists 2 example_sp PLAYLIST_NAME (start capsule_web)
      = (Ret result,
         mkRun capsule_web example_rng (Call_current_user_playlists :: cs) [])
    ∧ (result = None
       ↔ Forall (λ q, pl_name q ≠ PLAYLIST_NAME) (concat (items <$> ps))).
Proof.
  destruct capsule_web_chain as (p2 & _ & Hchain).
  assert (Hfuel : length [web_first capsule_web; p2] ≤ 2) by (simpl; lia).
  destruct (playlist_exists_first_match 2 example_sp PLAYLIST_NAME
              (start capsule_web) _ Hchain Hfuel)
    as (result & cs & Hrun & _ & Hnone & _).
  exists [web_first capsule_web; p2], result, cs.
  split; [exact Hchain|]. split; [exact Hfuel|].
  split; [exact Hrun|exact Hnone].
Defined.

(** ** The whole run, on the reference service *)

Section Main.

Lemma new_calls_app {W} (s s' : run W) (cs : list call) :
  calls s' = calls s ++ cs → new_calls s s' = cs.
Proof. intros Hc. unfold new_calls. by rewrite Hc, drop_app_length. Qed.

(** The credential resolver only ever refreshes a token: on the
    reference service it changes nothing but the call log. *)
Lemma get_spotify_client_frame os (s : run web) r s1 :
  get_spotify_client os s = (r, s1) →
  remote s1 = remote s ∧ rng s1 = rng s ∧ stdout s1 = stdout s
  ∧ ∃ cs, calls s1 = calls s ++ cs
          ∧ Forall (λ c, is_mutation c = false) cs.
Proof.
  assert (Hsame : ∀ o : outcome Spotify, (o, s) = (r, s1) →
    remote s1 = remote s ∧ rng s1 = rng s ∧ stdout s1 = stdout s
    ∧ ∃ cs, calls s1 = calls s ++ cs
            ∧ Forall (λ c, is_mutation c = false) cs).
  { intros o [= _ <-]. do 3 (split; [done|]). exists [].
    by rewrite app_nil_r. }
  unfold get_spotify_client.
  destruct (truthy_str (getenv os "SPOTIFY_ACCESS_TOKEN")); [apply Hsame|].
  unfold bind at 1, load_global. rewrite redirect_uri_unbound.
  destruct (truthy_str (getenv os "SPOTIFY_CLIENT_ID")
            && truthy_str (getenv os "SPOTIFY_CLIENT_SECRET")
            && truthy_str (getenv os "SPOTIFY_REFRESH_TOKEN"));
    [apply Hsame|].
  unfold ret at 1. cbn iota.
  destruct (negb (path_exists os TOKEN_PATH)); [apply Hsame|].
  unfold bind, lift_outcome, getitem, ret, raise.
  destruct (json_load os TOKEN_PATH) as [data|e|]; [|apply Hsame..].
  destruct (data !! "client_id") as [cid|]; [|apply Hsame].
  destruct (data !! "client_secret") as [csecret|]; [|apply Hsame].
  destruct (data !! "redirect_uri") as [ruri|]; [|apply Hsame].
  destruct (SpotifyOAuth_init_cases os cid csecret (Some ruri) SCOPE s)
    as [-> | [msg ->]]; [|apply Hsame].
  destruct (data !! "refresh_token"); [|apply Hsame].
  cbn. intros [= _ <-]. cbn. do 3 (split; [done|]).
  eexists. split; [done|]. by repeat constructor.
Qed.

Lemma create_playlist_ref sp name description public (s : run web) :
  create_playlist sp name description public s
  = (Ret (pl_id (new_playlist (remote s) name public description)),
     mkRun (with_new_playlist
              (new_playlist (remote s) name public description) (remote s))
           (rng s)
           (calls s ++ [Call_me;
                        Call_user_playlist_create (web_user (remote s)) name
                          public description])
           (stdout s ++
              ["✅ Created playlist: " +:+ name +:+ " ("
               +:+ pl_external_url
                     (new_playlist (remote s) name public description)
               +:+ ")"])).
Proof.
  unfold create_playlist, bind, sp_me, sp_user_playlist_create, request,
    print, ret.
  cbn. unfold ref_user_playlist_create. rewrite String.eqb_refl. cbn.
  by rewrite <- (assoc_L (++)).
Qed.

Lemma replace_tracks_ref sp playlist_id uris (s : run web) :
  knows (remote s) playlist_id = true →
  replace_tracks sp playlist_id uris s
  = (Ret (),
     mkRun (with_tracks playlist_id (λ _, uris) (remote s)) (rng s)
           (calls s ++ [Call_playlist_replace_items playlist_id uris])
           (stdout s ++ ["🎵 Replaced tracks in playlist with ID: "
                         +:+ playlist_id +:+ "."])).
Proof.
  intros Hk.
  unfold replace_tracks, bind, sp_playlist_replace_items, request, print.
  cbn. unfold update_tracks. by rewrite Hk.
Qed.

Lemma knows_new_playlist pl w :
  knows (with_new_playlist pl w) (pl_id pl) = true.
Proof. unfold knows, has_id. cbn. by rewrite String.eqb_refl. Qed.

(** [main] once the client is there, the lookup has returned [found]
    and the playlist to fill is [playlist_id]: what is left is the
    selector, then the replacement. *)
Lemma main_steps {W} `{SpotifyClient W} fuel os (s s1 s2 s3 : run W)
    sp found playlist_id :
  get_spotify_client os s = (Ret sp, s1) →
  playlist_exists fuel sp PLAYLIST_NAME s1 = (Ret found, s2) →
  (if negb (truthy_str found) then
     create_playlist sp PLAYLIST_NAME DESCRIPTION false
   else
     print ("✅ Found existing playlist: " +:+ PLAYLIST_NAME) ;;;
     ret (default "" found)) s2 = (Ret playlist_id, s3) →
  main fuel os s
  = match filter_tracks_by_play_count os CSV_FILE (rng s3) with
    | (Ret track_uris, g) =>
        (replace_tracks sp playlist_id track_uris ;;;
         print ("✅ Playlist update complete. Listen to it here: https://open.spotify.com/playlist/"
                +:+ playlist_id))
          (mkRun (remote s3) g (calls s3) (stdout s3))
    | (Raise e, g) => (Raise e, mkRun (remote s3) g (calls s3) (stdout s3))
    | (OutOfFuel, g) =>
        (OutOfFuel, mkRun (remote s3) g (calls s3) (stdout s3))
    end.
Proof.
  intros Hg Hfind Hensure. unfold main.
  unfold bind at 1. rewrite Hg. cbn zeta.
  unfold bind at 1. unfold PLAYLIST_NAME in Hfind. rewrite Hfind.
  unfold bind at 1. unfold PLAYLIST_NAME, DESCRIPTION in Hensure.
  rewrite Hensure.
  unfold bind at 1, with_rng. unfold CSV_FILE.
  by destruct (filter_tracks_by_play_count _ _ (rng s3)) as [[uris|e|] g].
Qed.

(** C9: when the client is obtained, the collection is a finite chain
    of pages none of whose playlists is named "My time capsule", and
    each stratum of the data set holds at least 10 rows, the run
    completes; it has created one playlist with exactly that name, the
    script's description and private visibility, and has replaced its
    items by the 30 URIs the selector returned.  The remote calls are
    the page fetches, [me], one [user_playlist_create] and one
    [playlist_replace_items]. *)
Theorem main_creates_time_capsule fuel os (s s1 : run web) sp df ps :
  get_spotify_client os s = (Ret sp, s1) →
  page_chain (web_pages (remote s)) (web_first (remote s)) ps →
  length ps ≤ fuel →
  Forall (λ q, pl_name q ≠ PLAYLIST_NAME) (concat (items <$> ps)) →
  files os !! CSV_FILE = Some (Csv df) →
  10 ≤ length (high df) →
  10 ≤ length (medium df) →
  10 ≤ length (low df) →
  ∃ uris created s',
    main fuel os s = (Ret (), s')
    ∧ filter_tracks_by_play_count os CSV_FILE (rng s) = (Ret uris, rng s')
    ∧ length uris = 30
    ∧ pl_name created = PLAYLIST_NAME
    ∧ pl_description created = DESCRIPTION
    ∧ pl_public created = false
    ∧ pl_tracks created = uris
    ∧ items (web_first (remote s')) !! 0 = Some created
    ∧ remote s'
      = with_tracks (pl_id created) (λ _, uris)
          (with_new_playlist
             (new_playlist (remote s) PLAYLIST_NAME false DESCRIPTION)
             (remote s))
    ∧ calls s'
      = calls s1 ++ Call_current_user_playlists :: (Call_get <$> links ps)
        ++ [Call_me;
            Call_user_playlist_create (web_user (remote s)) PLAYLIST_NAME
              false DESCRIPTION;
            Call_playlist_replace_items (pl_id created) uris].
Proof.
  intros Hg Hchain Hfuel Hnone Hf Hh Hm Hl.
  destruct (get_spotify_client_frame _ _ _ _ Hg)
    as (Hr & Hrng & Hout & _).
  rewrite <- Hr in *.
  destruct (playlist_exists_chain fuel sp PLAYLIST_NAME s1 ps Hchain Hfuel)
    as (cs & Hfind & _ & Hgets).
  apply for_playlist_in_None in Hnone. rewrite Hnone in Hfind.
  rewrite (Hgets Hnone) in Hfind. clear Hgets.
  pose proof (main_steps fuel os s s1 _ _ sp None _ Hg Hfind
                (create_playlist_ref sp PLAYLIST_NAME DESCRIPTION false _))
    as Hmain.
  cbn [rng remote calls stdout] in Hmain.
  destruct (selector_ok os CSV_FILE df (rng s1) Hf Hh Hm Hl)
    as (uris & g' & Hsel & Hlen).
  rewrite Hsel in Hmain.
  set (pl := new_playlist (remote s1) PLAYLIST_NAME false DESCRIPTION) in *.
  unfold bind in Hmain.
  rewrite replace_tracks_ref in Hmain by apply knows_new_playlist.
  cbn [rng remote calls stdout print] in Hmain.
  exists uris,
    (mkPlaylist (pl_id pl) PLAYLIST_NAME DESCRIPTION false uris
                (pl_external_url pl)).
  eexists. split; [exact Hmain|]. cbn [rng remote calls stdout pl_id].
  rewrite <- Hrng. split; [exact Hsel|]. split; [exact Hlen|].
  do 4 (split; [done|]). split.
  { cbn. unfold update_playlist, has_id. by rewrite String.eqb_refl. }
  split; [done|].
  rewrite <- !(assoc_L (++)). reflexivity.
Qed.

Lemma not_mutation_not_write (cs : list call) :
  Forall (λ c, is_mutation c = false) cs →
  Forall (λ c, is_items_write c = false) cs.
Proof. intros Hall. eapply Forall_impl; [exact Hall|]. by intros []. Qed.

(** C3, as the code has it: when the data set triggers the sampling
    error, the run ends with that error and never replaces or adds
    items.  If the lookup found a playlist named "My time capsule"
    (with a non-empty id), nothing was created or modified.  If no
    playlist has that name, the run has by then created the new, empty,
    private playlist: the only mutating call is that one
    [user_playlist_create], and the playlists that existed before are
    as they were. *)
Theorem main_insufficient_data fuel os (s s1 : run web) sp df ps :
  get_spotify_client os s = (Ret sp, s1) →
  page_chain (web_pages (remote s)) (web_first (remote s)) ps →
  length ps ≤ fuel →
  files os !! CSV_FILE = Some (Csv df) →
  length (high df) < 10 ∨ length (medium df) < 10 ∨ length (low df) < 10 →
  ∃ msg s',
    main fuel os s = (Raise (ValueError msg), s')
    ∧ Forall (λ c, is_items_write c = false) (new_calls s s')
    ∧ (∀ i, for_playlist_in (concat (items <$> ps)) PLAYLIST_NAME = Some i →
            i ≠ "" → no_mutation s s')
    ∧ (Forall (λ q, pl_name q ≠ PLAYLIST_NAME) (concat (items <$> ps)) →
       remote s'
       = with_new_playlist
           (new_playlist (remote s) PLAYLIST_NAME false DESCRIPTION)
           (remote s)
       ∧ items (web_first (remote s'))
         = new_playlist (remote s) PLAYLIST_NAME false DESCRIPTION
           :: items (web_first (remote s))
       ∧ web_pages (remote s') = web_pages (remote s)
       ∧ calls s'
         = calls s1 ++ Call_current_user_playlists
           :: (Call_get <$> links ps)
           ++ [Call_me;
               Call_user_playlist_create (web_user (remote s))
                 PLAYLIST_NAME false DESCRIPTION]).
Proof.
  intros Hg Hchain Hfuel Hf Hshort.
  destruct (get_spotify_client_frame _ _ _ _ Hg)
    as (Hr & Hrng & Hout & cs0 & Hc0 & Hm0).
  rewrite <- Hr in *.
  destruct (playlist_exists_chain fuel sp PLAYLIST_NAME s1 ps Hchain Hfuel)
    as (cs & Hfind & Hmut & Hgets).
  destruct (selector_short os CSV_FILE df (rng s1) Hf Hshort)
    as (msg & g' & Hsel).
  exists msg.
  destruct (truthy_str (for_playlist_in (concat (items <$> ps)) PLAYLIST_NAME))
    eqn:Htruthy.
  - (* found: nothing is created *)
    epose proof (main_steps fuel os s s1 _ _ sp _ _ Hg Hfind) as Hmain.
    rewrite Htruthy in Hmain. specialize (Hmain eq_refl).
    cbn [rng remote calls stdout] in Hmain. rewrite Hsel in Hmain.
    eexists. split; [exact Hmain|].
    assert (Hnew : new_calls s
              (mkRun (remote s1) g' (calls s1 ++ Call_current_user_playlists :: cs)
                     (stdout s1 ++ ["✅ Found existing playlist: "
                                    +:+ PLAYLIST_NAME]))
            = cs0 ++ Call_current_user_playlists :: cs).
    { apply new_calls_app. cbn [calls]. by rewrite Hc0, <- (assoc_L (++)). }
    assert (Hquiet : Forall (λ c, is_mutation c = false)
                            (cs0 ++ Call_current_user_playlists :: cs)).
    { apply Forall_app. split; [done|]. by constructor. }
    split; [|split].
    + rewrite Hnew. by apply not_mutation_not_write.
    + intros _ _ _. split; [done|]. by rewrite Hnew.
    + intros Hnone. apply for_playlist_in_None in Hnone.
      by rewrite Hnone in Htruthy.
  - (* not found: the playlist is created first *)
    epose proof (main_steps fuel os s s1 _ _ sp _ _ Hg Hfind) as Hmain.
    rewrite Htruthy in Hmain.
    specialize (Hmain (create_playlist_ref sp PLAYLIST_NAME DESCRIPTION
                         false _)).
    cbn [rng remote calls stdout] in Hmain. rewrite Hsel in Hmain.
    eexists. split; [exact Hmain|]. split; [|split].
    + erewrite new_calls_app; last first.
      { cbn [calls]. by rewrite Hc0, <- !(assoc_L (++)). }
      apply not_mutation_not_write in Hm0, Hmut.
      apply Forall_app. split; [done|]. cbn.
      constructor; [done|]. apply Forall_app. split; [done|].
      by repeat constructor.
    + intros i Hi Hne. rewrite Hi in Htruthy. cbn in Htruthy.
      apply negb_false_iff, String.eqb_eq in Htruthy. by destruct Hne.
    + intros Hnone. apply for_playlist_in_None in Hnone.
      rewrite (Hgets Hnone). cbn [remote calls]. do 3 (split; [done|]).
      by rewrite <- !(assoc_L (++)).
Qed.

End Main.

Lemma main_creates_time_capsule_witness :
  10 ≤ length (high example_df)
  ∧ 10 ≤ length (medium example_df)
  ∧ 10 ≤ length (low example_df)
  ∧ Forall (λ q, pl_name q ≠ PLAYLIST_NAME) (items (web_first bare_web))
  ∧ ∃ uris created s',
      main 1 example_os (start bare_web) = (Ret (), s')
      ∧ length uris = 30
      ∧ pl_name created = PLAYLIST_NAME
      ∧ pl_public created = false
      ∧ pl_tracks created = uris
      ∧ items (web_first (remote s')) !! 0 = Some created.
Proof.
  assert (Hh : 10 ≤ length (high example_df)) by (vm_compute; lia).
  assert (Hm : 10 ≤ length (medium example_df)) by (vm_compute; lia).
  assert (Hl : 10 ≤ length (low example_df)) by (vm_compute; lia).
  assert (Hnone : Forall (λ q, pl_name q ≠ PLAYLIST_NAME)
                         (items (web_first bare_web)))
    by (repeat constructor; discriminate).
  do 4 (split; [assumption|]).
  destruct (main_creates_time_capsule 1 example_os (start bare_web)
              (start bare_web) example_sp example_df [web_first bare_web])
    as (uris & created & s' & Hmain & _ & Hlen & Hname & _ & Hpub & Htr
        & Hhead & _).
  - reflexivity.
  - apply chain_last. reflexivity.
  - simpl. lia.
  - simpl. rewrite ?app_nil_r. exact Hnone.
  - vm_compute. reflexivity.
  - exact Hh.
  - exact Hm.
  - exact Hl.
  - exists uris, created, s'. repeat (split; [assumption|]). assumption.
Defined.

Lemma main_insufficient_data_witness :
  length (high short_df) < 10
  ∧ (∃ msg s',
       main 2 short_os (start capsule_web) = (Raise (ValueError msg), s')
       ∧ no_mutation (start capsule_web) s')
  ∧ (∃ msg s',
       main 1 short_os (start bare_web) = (Raise (ValueError msg), s')
       ∧ items (web_first (remote s'))
         = new_playlist bare_web PLAYLIST_NAME false DESCRIPTION
           :: items (web_first bare_web)).
Proof.
  assert (Hshort : length (high short_df) < 10) by (vm_compute; lia).
  assert (Hf : files short_os !! CSV_FILE = Some (Csv short_df))
    by (vm_compute; reflexivity).
  split; [exact Hshort|]. split.
  - destruct capsule_web_chain as (p2 & Hp2 & Hchain).
    assert (Hp2' : p2 = mkPage [ example_playlist "pl3" "My time capsule"
                                   ["old1"; "old2"; "old3"; "old4"; "old5"];
                                 example_playlist "pl4" "Focus"
                                   ["spotify:track:b"] ] None).
    { vm_compute in Hp2. by injection Hp2. }
    destruct (main_insufficient_data 2 short_os (start capsule_web)
                (start capsule_web) example_sp short_df _ eq_refl Hchain)
      as (msg & s' & Hmain & _ & Hfound & _);
      [simpl; lia|exact Hf|by left|].
    exists msg, s'. split; [exact Hmain|].
    apply (Hfound "pl3"); [|discriminate]. rewrite Hp2'. reflexivity.
  - destruct (main_insufficient_data 1 short_os (start bare_web)
                (start bare_web) example_sp short_df [web_first bare_web]
                eq_refl)
      as (msg & s' & Hmain & _ & _ & Hcreated);
      [by apply chain_last|simpl; lia|exact Hf|by left|].
    destruct Hcreated as (_ & Hitems & _).
    { repeat constructor; discriminate. }
    exists msg, s'. by split.
Defined.

(** C3 fails on the code: with only 8 rows of ten or more plays and no
    playlist named "My time capsule", the run aborts with the sampling
    error after it has created the playlist. *)
Lemma insufficient_data_after_create :
  length (high short_df) < 10
  ∧ (∃ msg, (main 1 short_os (start bare_web)).1 = Raise (ValueError msg))
  ∧ calls (main 1 short_os (start bare_web)).2
    = [Call_current_user_playlists; Call_me;
       Call_user_playlist_create "abbie" PLAYLIST_NAME false DESCRIPTION]
  ∧ ¬ no_mutation (start bare_web) (main 1 short_os (start bare_web)).2.
Proof.
  split; [vm_compute; lia|]. split; [eexists; by vm_compute|].
  split; [by vm_compute|].
  intros [Hremote _]. apply (f_equal web_created) in Hremote.
  vm_compute in Hremote. discriminate Hremote.
Qed.

(** ** Runs on the concrete inputs *)

Example permutation_of_twelve :
  (permutation 12 example_rng).1
  = Ret [4; 1; 0; 5; 2; 8; 11; 9; 6; 7; 10; 3].
Proof. by vm_compute. Qed.

Example sample_of_five_raises :
  (choice 5 10 example_rng).1
  = Raise (ValueError
      "Cannot take a larger sample than population when 'replace=False'").
Proof. by vm_compute. Qed.

(** The lookup is exact: "my time capsule" on the first page is passed
    over, "My time capsule" on the second page is found. *)
Example lookup_is_case_sensitive :
  (playlist_exists 2 example_sp PLAYLIST_NAME (start capsule_web)).1
  = Ret (Some "pl3").
Proof. by vm_compute. Qed.

(** With too little fuel for the two pages the model stops the loop. *)
Example lookup_needs_fuel_per_page :
  (playlist_exists 1 example_sp PLAYLIST_NAME (start capsule_web)).1
  = OutOfFuel.
Proof. by vm_compute. Qed.

(** An existing time capsule with five old tracks holds exactly the 30
    selected tracks after the run; its neighbour is as it was. *)
Example existing_capsule_refilled :
  ∃ uris,
    (filter_tracks_by_play_count example_os CSV_FILE example_rng).1 = Ret uris
    ∧ length uris = 30
    ∧ (main 2 example_os (start capsule_web)).1 = Ret ()
    ∧ (λ p, pl_tracks <$> items p)
        <$> web_pages (remote (main 2 example_os (start capsule_web)).2)
            !! PAGE2
      = Some [uris; ["spotify:track:b"]].
Proof. eexists. split; [by vm_compute|]. repeat split; by vm_compute. Qed.

(** * Further properties of the script *)

(** ** The selector: strata and samples *)

Section SelectorMore.

(** The three masks of the script split the data set. *)
Lemma strata_partition (df : DataFrame) :
  high df ++ medium df ++ low df ≡ₚ df.
Proof.
  unfold high, medium, low. induction df as [|r df IH]; [done|].
  destruct (decide (10 ≤ plays r)%Z) as [Hh|Hh].
  { rewrite (filter_cons_True (λ r, (10 ≤ plays r)%Z)) by done.
    rewrite (filter_cons_False (λ r, (5 ≤ plays r)%Z ∧ (plays r < 10)%Z))
      by lia.
    rewrite (filter_cons_False (λ r, (plays r < 5)%Z)) by lia.
    cbn. by f_equiv. }
  rewrite (filter_cons_False (λ r, (10 ≤ plays r)%Z)) by done.
  destruct (decide (5 ≤ plays r)%Z) as [Hm|Hm].
  - rewrite (filter_cons_True (λ r, (5 ≤ plays r)%Z ∧ (plays r < 10)%Z))
      by lia.
    rewrite (filter_cons_False (λ r, (plays r < 5)%Z)) by lia.
    rewrite <- app_comm_cons, <- Permutation_middle. by f_equiv.
  - rewrite (filter_cons_False (λ r, (5 ≤ plays r)%Z ∧ (plays r < 10)%Z))
      by lia.
    rewrite (filter_cons_True (λ r, (plays r < 5)%Z)) by lia.
    rewrite (assoc_L (++)), <- Permutation_middle, <- (assoc_L (++)).
    by f_equiv.
Qed.

Lemma fmap_lookup_total_seq (l : list row) :
  (λ i, l !!! i) <$> seq 0 (length l) = l.
Proof.
  apply list_eq. intros i. rewrite list_lookup_fmap.
  destruct (decide (i < length l)) as [Hlt|Hge].
  - rewrite lookup_seq_lt by done. cbn.
    symmetry. by apply list_lookup_lookup_total_lt.
  - rewrite (lookup_ge_None_2 (seq 0 (length l))) by (rewrite length_seq; lia).
    symmetry. apply lookup_ge_None_2. lia.
Qed.

(** A sample without replacement is, as a multiset, part of its
    population. *)
Lemma sampled_from_submseteq n population rows :
  sampled_from n population rows → rows ⊆+ population.
Proof.
  intros (locs & _ & Hnd & Hall).
  assert (Hrows : rows = (λ i, population !!! i) <$> locs).
  { clear Hnd. induction Hall as [|i r locs rows Hi _ IH]; [done|].
    cbn. rewrite <- IH. f_equal. symmetry. by apply list_lookup_total_correct. }
  rewrite Hrows, <- (fmap_lookup_total_seq population) at 1.
  apply fmap_submseteq, NoDup_submseteq; [done|].
  intros i Hi. apply elem_of_seq. split; [lia|]. cbn.
  apply list_elem_of_lookup in Hi as [k Hk].
  destruct (Forall2_lookup_l _ _ _ _ _ Hall Hk) as (r & _ & Hr).
  by eapply lookup_lt_Some.
Qed.

Lemma submseteq_NoDup {A} (l k : list A) : l ⊆+ k → NoDup k → NoDup l.
Proof.
  intros [k' Hk]%submseteq_Permutation Hnd. rewrite Hk in Hnd.
  by apply NoDup_app in Hnd as [? _].
Qed.

(** What a returning sampling call tells. *)
Lemma DataFrame_sample_inv n df g rows g' :
  DataFrame_sample n df g = (Ret rows, g') →
  n ≤ length df ∧ sampled_from n df rows.
Proof.
  intros Hrun. destruct (decide (n ≤ length df)) as [Hle|Hgt].
  - destruct (DataFrame_sample_ok n df g Hle) as (rows0 & g0 & Hok & Hs).
    rewrite Hok in Hrun. by simplify_eq.
  - destruct (DataFrame_sample_raises n df g) as [msg Hr]; [lia|].
    rewrite Hr in Hrun. discriminate Hrun.
Qed.

(** What a returning selector tells. *)
Lemma selector_inv os csv_file g uris g' :
  filter_tracks_by_play_count os csv_file g = (Ret uris, g') →
  ∃ df hi mi lo,
    files os !! csv_file = Some (Csv df)
    ∧ uris = (uri <$> hi) ++ (uri <$> mi) ++ (uri <$> lo)
    ∧ (10 ≤ length (high df) ∧ sampled_from 10 (high df) hi)
    ∧ (10 ≤ length (medium df) ∧ sampled_from 10 (medium df) mi)
    ∧ (10 ≤ length (low df) ∧ sampled_from 10 (low df) lo).
Proof.
  unfold filter_tracks_by_play_count, bind, lift_outcome, read_csv, ret.
  destruct (files os !! csv_file) as [[df| |]|] eqn:Hf; try discriminate.
  destruct (DataFrame_sample 10 (high df) g) as [[hi|e|] g1] eqn:H1;
    try discriminate.
  destruct (DataFrame_sample 10 (medium df) g1) as [[mi|e|] g2] eqn:H2;
    try discriminate.
  destruct (DataFrame_sample 10 (low df) g2) as [[lo|e|] g3] eqn:H3;
    try discriminate.
  intros [= <- <-]. exists df, hi, mi, lo.
  split; [done|]. split; [by rewrite <- (assoc_L (++))|].
  split; [by eapply DataFrame_sample_inv|].
  split; by eapply DataFrame_sample_inv.
Qed.

End SelectorMore.

Section SelectorExtras.

(** X1: the three strata of the script split every data set: each row
    falls in exactly one of them, so their sizes add up to the size of
    the data set and no row belongs to two strata. *)
Theorem strata_split_dataset (df : DataFrame) :
  high df ++ medium df ++ low df ≡ₚ df
  ∧ length (high df) + length (medium df) + length (low df) = length df
  ∧ ∀ r, ¬ (r ∈ high df ∧ r ∈ medium df)
         ∧ ¬ (r ∈ high df ∧ r ∈ low df)
         ∧ ¬ (r ∈ medium df ∧ r ∈ low df).
Proof.
  split; [apply strata_partition|]. split.
  - pose proof (Permutation_length (strata_partition df)) as Hlen.
    rewrite !length_app in Hlen. lia.
  - intros r. rewrite high_spec, medium_spec, low_spec. lia.
Qed.

(** X2: whenever the selector returns, the URIs it returns are drawn
    from the whole data set without replacement: as a multiset they are
    part of the [uri] column.  So a data set without repeated URIs gives
    a playlist without repeated tracks. *)
Theorem selector_draws_without_replacement os csv_file df g uris :
  files os !! csv_file = Some (Csv df) →
  (filter_tracks_by_play_count os csv_file g).1 = Ret uris →
  uris ⊆+ (uri <$> df)
  ∧ (NoDup (uri <$> df) → NoDup uris).
Proof.
  intros Hf Hrun.
  destruct (filter_tracks_by_play_count os csv_file g) as [r g'] eqn:Hsel.
  cbn in Hrun. subst r.
  destruct (selector_inv _ _ _ _ _ Hsel)
    as (df' & hi & mi & lo & Hf' & -> & [_ S1] & [_ S2] & [_ S3]).
  assert (df' = df) as -> by congruence.
  assert (Hsub : (uri <$> hi) ++ (uri <$> mi) ++ (uri <$> lo) ⊆+ uri <$> df).
  { trans (uri <$> (high df ++ medium df ++ low df));
      [|by rewrite strata_partition].
    rewrite !fmap_app.
    repeat apply submseteq_app;
      by apply fmap_submseteq, sampled_from_submseteq with 10. }
  split; [exact Hsub|]. by apply submseteq_NoDup.
Qed.

(** X3: the selector never returns anything but 30 URIs: if it returns,
    the CSV file was readable and each stratum held at least 10 rows. *)
Theorem selector_returns_only_thirty os csv_file g uris :
  (filter_tracks_by_play_count os csv_file g).1 = Ret uris →
  length uris = 30
  ∧ ∃ df, files os !! csv_file = Some (Csv df)
          ∧ 10 ≤ length (high df)
          ∧ 10 ≤ length (medium df)
          ∧ 10 ≤ length (low df).
Proof.
  intros Hrun.
  destruct (filter_tracks_by_play_count os csv_file g) as [r g'] eqn:Hsel.
  cbn in Hrun. subst r.
  destruct (selector_inv _ _ _ _ _ Hsel)
    as (df & hi & mi & lo & Hf & -> & [L1 S1] & [L2 S2] & [L3 S3]).
  split; [|by exists df].
  rewrite !length_app, !length_fmap.
  rewrite (sampled_from_length _ _ _ S1), (sampled_from_length _ _ _ S2),
    (sampled_from_length _ _ _ S3). done.
Qed.

End SelectorExtras.

Lemma selector_draws_without_replacement_witness :
  NoDup (uri <$> example_df) ∧ NoDup example_uris.
Proof.
  assert (Hnd : NoDup (uri <$> example_df)) by compute_done.
  split; [exact Hnd|].
  apply (selector_draws_without_replacement example_os CSV_FILE example_df
           example_rng example_uris);
    [vm_compute; reflexivity | vm_compute; reflexivity | exact Hnd].
Defined.

Lemma selector_returns_only_thirty_witness :
  length example_uris = 30.
Proof.
  apply (selector_returns_only_thirty example_os CSV_FILE example_rng
           example_uris).
  vm_compute. reflexivity.
Defined.

(** ** The credential resolver: the first and the third strategy *)

Section CredentialExtras.
Context {W : Type} `{SpotifyClient W}.

(** The resolver once the first two strategies are passed over. *)
Lemma get_spotify_client_fallback (os : os_state) (s : run W) :
  truthy_str (getenv os "SPOTIFY_ACCESS_TOKEN") = false →
  truthy_str (getenv os "SPOTIFY_CLIENT_ID")
    && truthy_str (getenv os "SPOTIFY_CLIENT_SECRET")
    && truthy_str (getenv os "SPOTIFY_REFRESH_TOKEN") = false →
  get_spotify_client os s
  = (if negb (path_exists os TOKEN_PATH) then
       raise (FileNotFoundError
         "No .spotify_tokens.json file found. Run spotify_auth.py first to authorise or set environment variables.")
     else
       data <- lift_outcome (json_load os TOKEN_PATH) ;;
       cid <- getitem data "client_id" ;;
       csecret <- getitem data "client_secret" ;;
       ruri <- getitem data "redirect_uri" ;;
       sp_oauth <- SpotifyOAuth_init os cid csecret (Some ruri) SCOPE ;;
       rtoken <- getitem data "refresh_token" ;;
       token_info <- refresh_access_token sp_oauth rtoken ;;
       ret (mkSpotify (tok_access_token token_info))) s.
Proof.
  intros Ht Henv. unfold get_spotify_client. rewrite Ht, Henv.
  reflexivity.
Qed.

(** X4: a non-empty [SPOTIFY_ACCESS_TOKEN] wins over everything else:
    the client is built from it without any remote call, whatever the
    other variables and the tokens file hold. *)
Theorem direct_token_wins (os : os_state) (s : run W) (token : string) :
  getenv os "SPOTIFY_ACCESS_TOKEN" = Some token →
  token ≠ "" →
  get_spotify_client os s = (Ret (mkSpotify token), s).
Proof.
  intros Hget Hne. unfold get_spotify_client. rewrite Hget. cbn.
  apply String.eqb_neq in Hne. by rewrite Hne.
Qed.

(** The resolver on a tokens file that holds the three entries the
    constructor takes: what is left is the constructor, the refresh
    token and the request. *)
Lemma get_spotify_client_tokens_file (os : os_state) (s : run W)
    (data : gmap string string) (cid csecret ruri : string) :
  truthy_str (getenv os "SPOTIFY_ACCESS_TOKEN") = false →
  truthy_str (getenv os "SPOTIFY_CLIENT_ID")
    && truthy_str (getenv os "SPOTIFY_CLIENT_SECRET")
    && truthy_str (getenv os "SPOTIFY_REFRESH_TOKEN") = false →
  files os !! TOKEN_PATH = Some (Json data) →
  data !! "client_id" = Some cid →
  data !! "client_secret" = Some csecret →
  data !! "redirect_uri" = Some ruri →
  get_spotify_client os s
  = (sp_oauth <- SpotifyOAuth_init os cid csecret (Some ruri) SCOPE ;;
     rtoken <- getitem data "refresh_token" ;;
     token_info <- refresh_access_token sp_oauth rtoken ;;
     ret (mkSpotify (tok_access_token token_info))) s.
Proof.
  intros Ht Henv Hfile Hc Hs Hu.
  rewrite get_spotify_client_fallback by done.
  unfold path_exists. rewrite Hfile.
  rewrite bool_decide_eq_true_2 by eauto. cbn [negb].
  unfold bind at 1, lift_outcome, json_load. rewrite Hfile.
  unfold bind at 1, getitem at 1. rewrite Hc. unfold ret at 1.
  unfold bind at 1, getitem at 1. rewrite Hs. unfold ret at 1.
  unfold bind at 1, getitem at 1. rewrite Hu. unfold ret at 1.
  reflexivity.
Qed.


(** X6: a tokens file that lacks one of its four entries makes the
    resolver fail before any request is sent, with the state of the run
    unchanged.  A missing [client_id], [client_secret] or [redirect_uri]
    gives [KeyError] for a missing entry, because the arguments are read
    before the constructor runs.  A missing [refresh_token] gives
    [KeyError] for it when the constructor accepts the other three
    entries (as it does when they are non-empty); when the constructor
    rejects one of them the failure is its [SpotifyOauthError], raised
    before the refresh token is read. *)
Theorem tokens_file_missing_key (os : os_state) (s : run W)
    (data : gmap string string) (key : string) :
  truthy_str (getenv os "SPOTIFY_ACCESS_TOKEN") = false →
  truthy_str (getenv os "SPOTIFY_CLIENT_ID")
    && truthy_str (getenv os "SPOTIFY_CLIENT_SECRET")
    && truthy_str (getenv os "SPOTIFY_REFRESH_TOKEN") = false →
  files os !! TOKEN_PATH = Some (Json data) →
  key ∈ ["client_id"; "client_secret"; "redirect_uri"; "refresh_token"] →
  data !! key = None →
  ∃ e,
    get_spotify_client os s = (Raise e, s)
    ∧ ((∃ missing, e = KeyError missing ∧ data !! missing = None)
       ∨ (∃ msg cid csecret ruri,
            e = SpotifyOauthError msg
            ∧ data !! "client_id" = Some cid
            ∧ data !! "client_secret" = Some csecret
            ∧ data !! "redirect_uri" = Some ruri
            ∧ (cid = "" ∨ csecret = "" ∨ ruri = "")))
    ∧ (key ≠ "refresh_token" →
       ∃ missing, e = KeyError missing ∧ missing ≠ "refresh_token")
    ∧ (∀ cid csecret ruri,
         data !! "client_id" = Some cid →
         data !! "client_secret" = Some csecret →
         data !! "redirect_uri" = Some ruri →
         (cid ≠ "" → csecret ≠ "" → ruri ≠ "" →
          e = KeyError "refresh_token")
         ∧ ((cid = "" ∧ getenv os "SPOTIPY_CLIENT_ID" = None)
            ∨ (csecret = "" ∧ getenv os "SPOTIPY_CLIENT_SECRET" = None)
            ∨ (ruri = "" ∧ getenv os "SPOTIPY_REDIRECT_URI" = None) →
            ∃ msg, e = SpotifyOauthError msg)).
Proof.
  intros Ht Henv Hfile Hkey Hnone.
  destruct (data !! "client_id") as [cid|] eqn:Hc; last first.
  { exists (KeyError "client_id").
    rewrite get_spotify_client_fallback by done.
    unfold path_exists. rewrite Hfile.
    rewrite bool_decide_eq_true_2 by eauto. cbn [negb].
    unfold bind, lift_outcome, json_load, getitem. rewrite Hfile, Hc.
    split; [done|]. split; [left; by eexists|].
    split; [by eexists|]. by intros. }
  destruct (data !! "client_secret") as [csecret|] eqn:Hs; last first.
  { exists (KeyError "client_secret").
    rewrite get_spotify_client_fallback by done.
    unfold path_exists. rewrite Hfile.
    rewrite bool_decide_eq_true_2 by eauto. cbn [negb].
    unfold bind, lift_outcome, json_load, getitem. rewrite Hfile, Hc, Hs.
    split; [done|]. split; [left; by eexists|].
    split; [by eexists|]. by intros. }
  destruct (data !! "redirect_uri") as [ruri|] eqn:Hu; last first.
  { exists (KeyError "redirect_uri").
    rewrite get_spotify_client_fallback by done.
    unfold path_exists. rewrite Hfile.
    rewrite bool_decide_eq_true_2 by eauto. cbn [negb].
    unfold bind, lift_outcome, json_load, getitem. rewrite Hfile, Hc, Hs, Hu.
    split; [done|]. split; [left; by eexists|].
    split; [by eexists|]. by intros. }
  assert (Hr : data !! "refresh_token" = None).
  { repeat (apply elem_of_cons in Hkey as [->|Hkey]; [congruence|]).
    by apply elem_of_nil in Hkey. }
  assert (Hkey' : key = "refresh_token").
  { repeat (apply elem_of_cons in Hkey as [->|Hkey]; [congruence|]).
    by apply elem_of_nil in Hkey. }
  pose proof (get_spotify_client_tokens_file os s data cid csecret ruri
                Ht Henv Hfile Hc Hs Hu) as Hrun.
  destruct (SpotifyOAuth_init_cases os cid csecret (Some ruri) SCOPE s)
    as [Hinit|[msg Hinit]].
  - exists (KeyError "refresh_token"). split.
    { rewrite Hrun. unfold bind at 1. rewrite Hinit.
      unfold bind at 1, getitem. by rewrite Hr. }
    split; [left; by eexists|]. split; [done|].
    intros cid' csecret' ruri' [= <-] [= <-] [= <-]. split; [done|].
    intros Hrej.
    destruct (SpotifyOAuth_init_rejects os cid csecret ruri SCOPE s Hrej)
      as [msg Hraise].
    rewrite Hraise in Hinit. discriminate Hinit.
  - exists (SpotifyOauthError msg). split.
    { rewrite Hrun. unfold bind at 1. by rewrite Hinit. }
    pose proof (SpotifyOAuth_init_raise_empty _ _ _ _ _ _ _ _ Hinit)
      as Hempty.
    split; [right; by exists msg, cid, csecret, ruri|]. split; [done|].
    intros cid' csecret' ruri' [= <-] [= <-] [= <-]. split; [|by eexists].
    intros Hi Hsec Hru. by destruct Hempty as [?|[?|?]].
Qed.

(** X7: whatever the environment and the files, the resolver prints
    nothing, leaves the random state alone and sends at most one
    request; a request it sends is a token refresh whose [SpotifyOAuth]
    arguments are the entries of the tokens file, never the
    [SPOTIFY_] variables of the environment.  (For an argument that is
    empty the constructor itself falls back to its [SPOTIPY_] variable,
    see [ensure_value].) *)
Theorem resolver_requests (os : os_state) (s : run W) :
  let s' := (get_spotify_client os s).2 in
  rng s' = rng s ∧ stdout s' = stdout s
  ∧ (s' = s
     ∨ ∃ data cid csecret ruri rtoken,
         files os !! TOKEN_PATH = Some (Json data)
         ∧ data !! "client_id" = Some cid
         ∧ data !! "client_secret" = Some csecret
         ∧ data !! "redirect_uri" = Some ruri
         ∧ data !! "refresh_token" = Some rtoken
         ∧ calls s'
           = calls s ++ [Call_refresh_access_token
                           (mkSpotifyOAuth cid csecret (Some ruri) SCOPE)
                           rtoken]).
Proof.
  cbn zeta.
  destruct (truthy_str (getenv os "SPOTIFY_ACCESS_TOKEN")) eqn:Ht.
  { unfold get_spotify_client. rewrite Ht. cbn. auto. }
  destruct (truthy_str (getenv os "SPOTIFY_CLIENT_ID")
            && truthy_str (getenv os "SPOTIFY_CLIENT_SECRET")
            && truthy_str (getenv os "SPOTIFY_REFRESH_TOKEN")) eqn:Henv.
  { unfold get_spotify_client. rewrite Ht, Henv.
    unfold bind at 1, load_global. rewrite redirect_uri_unbound. cbn. auto. }
  rewrite get_spotify_client_fallback by done.
  destruct (negb (path_exists os TOKEN_PATH)); [cbn; auto|].
  unfold bind, lift_outcome, json_load, getitem.
  destruct (files os !! TOKEN_PATH) as [[|data|]|] eqn:Hfile; [cbn; auto| |cbn; auto..].
  destruct (data !! "client_id") as [cid|] eqn:Hc; [|cbn; auto].
  destruct (data !! "client_secret") as [csecret|] eqn:Hs; [|cbn; auto].
  destruct (data !! "redirect_uri") as [ruri|] eqn:Hu; [|cbn; auto].
  unfold ret. cbn beta iota.
  destruct (SpotifyOAuth_init_cases os cid csecret (Some ruri) SCOPE s)
    as [-> | [msg ->]]; [|cbn; auto].
  destruct (data !! "refresh_token") as [rtoken|] eqn:Hr; [|cbn; auto].
  unfold refresh_access_token, request.
  destruct (web_refresh_access_token _ rtoken (remote s)) as [[t|e|] w];
    cbn; (do 2 (split; [done|])); right;
    by exists data, cid, csecret, ruri, rtoken.
Qed.

End CredentialExtras.

Lemma direct_token_wins_witness :
  get_spotify_client full_os (start capsule_web)
  = (Ret (mkSpotify "BQD-token"), start capsule_web).
Proof.
  apply (direct_token_wins full_os (start capsule_web) "BQD-token");
    [reflexivity|discriminate].
Defined.


Lemma tokens_file_missing_key_witness :
  get_spotify_client partial_file_os (start capsule_web)
  = (Raise (KeyError "refresh_token"), start capsule_web)
  ∧ ∃ msg,
      get_spotify_client empty_id_partial_os (start capsule_web)
      = (Raise (SpotifyOauthError msg), start capsule_web).
Proof.
  split.
  - destruct (tokens_file_missing_key partial_file_os (start capsule_web)
                partial_token_file "refresh_token")
      as (e & Hrun & _ & _ & Hexact);
      [reflexivity|reflexivity|vm_compute; reflexivity
      |apply (bool_decide_unpack _); vm_compute; exact I
      |vm_compute; reflexivity|].
    destruct (Hexact "0a1b2c" "s3cr3t" "http://localhost:8888/callback")
      as [Hkey _]; [vm_compute; reflexivity..|].
    rewrite Hkey in Hrun by discriminate. exact Hrun.
  - destruct (tokens_file_missing_key empty_id_partial_os (start capsule_web)
                empty_id_partial_file "refresh_token")
      as (e & Hrun & _ & _ & Hexact);
      [reflexivity|reflexivity|vm_compute; reflexivity
      |apply (bool_decide_unpack _); vm_compute; exact I
      |vm_compute; reflexivity|].
    destruct (Hexact "" "s3cr3t" "http://localhost:8888/callback")
      as [_ Hrejected]; [vm_compute; reflexivity..|].
    destruct Hrejected as [msg ->]; [left; split; reflexivity|].
    by exists msg.
Defined.

(** ** The lookup, for every client *)

Section LookupExtras.
Context {W : Type} `{SpotifyClient W}.

Lemma while_playlists_reads fuel sp name (playlists : option page)
    (s : run W) :
  ∃ urls,
    calls (while_playlists fuel sp name playlists s).2
    = calls s ++ (Call_get <$> urls)
    ∧ length urls ≤ fuel
    ∧ rng (while_playlists fuel sp name playlists s).2 = rng s
    ∧ stdout (while_playlists fuel sp name playlists s).2 = stdout s.
Proof.
  revert playlists s. induction fuel as [|fuel IH]; intros [pg|] s;
    try (exists []; cbn; rewrite app_nil_r; split; [done|]; split; [lia|done]).
  cbn [while_playlists].
  destruct (for_playlist_in (items pg) name) as [i|].
  { exists []. cbn. rewrite app_nil_r. split; [done|]. split; [lia|done]. }
  destruct (truthy_str (next pg)) eqn:Htruthy; last first.
  { rewrite while_playlists_None. exists []. cbn. rewrite app_nil_r.
    split; [done|]. split; [lia|done]. }
  unfold sp_next. rewrite Htruthy. unfold bind, request, ret.
  destruct (web_get sp (default "" (next pg)) (remote s)) as [[p|e|] w].
  - match goal with |- context [while_playlists fuel sp name (Some p) ?s1] =>
      destruct (IH (Some p) s1) as (urls & Hc & Hlen & Hr & Ho)
    end.
    exists (default "" (next pg) :: urls). rewrite Hc, Hr, Ho. cbn.
    rewrite <- (assoc_L (++)). split; [done|]. split; [lia|done].
  - exists [default "" (next pg)]. cbn. split; [done|]. split; [lia|done].
  - exists [default "" (next pg)]. cbn. split; [done|]. split; [lia|done].
Qed.

Lemma playlist_exists_reads fuel sp name (s : run W) :
  ∃ urls,
    calls (playlist_exists fuel sp name s).2
    = calls s ++ Call_current_user_playlists :: (Call_get <$> urls)
    ∧ length urls ≤ fuel
    ∧ rng (playlist_exists fuel sp name s).2 = rng s
    ∧ stdout (playlist_exists fuel sp name s).2 = stdout s.
Proof.
  unfold playlist_exists, bind, sp_current_user_playlists, request.
  destruct (web_current_user_playlists sp (remote s)) as [[p|e|] w];
    try (exists []; cbn; split; [done|]; split; [lia|done]).
  match goal with |- context [while_playlists fuel sp name (Some p) ?s1] =>
    destruct (while_playlists_reads fuel sp name (Some p) s1)
      as (urls & Hc & Hlen & Hr & Ho)
  end.
  exists urls. rewrite Hc, Hr, Ho. cbn. by rewrite <- (assoc_L (++)).
Qed.

Lemma Forall_get_quiet (urls : list string) :
  Forall (λ c, is_mutation c = false) (Call_get <$> urls).
Proof. apply Forall_fmap, Forall_forall. by intros. Qed.

(** X8: the lookup only reads.  Whatever the client answers and however
    the lookup ends, the requests it has sent are one
    [current_user_playlists] followed by page fetches, at most one per
    unit of fuel, none of them a mutation; it prints nothing and does
    not touch the random state. *)
Theorem lookup_only_reads fuel sp name (s : run W) :
  (∃ urls,
     new_calls s (playlist_exists fuel sp name s).2
     = Call_current_user_playlists :: (Call_get <$> urls)
     ∧ length urls ≤ fuel)
  ∧ Forall (λ c, is_mutation c = false)
           (new_calls s (playlist_exists fuel sp name s).2)
  ∧ rng (playlist_exists fuel sp name s).2 = rng s
  ∧ stdout (playlist_exists fuel sp name s).2 = stdout s.
Proof.
  destruct (playlist_exists_reads fuel sp name s)
    as (urls & Hc & Hlen & Hr & Ho).
  apply new_calls_app in Hc. rewrite Hc.
  split; [by exists urls|]. split; [|done].
  constructor; [done|]. apply Forall_get_quiet.
Qed.


(** X10: a page without a match whose [next] leads back to itself keeps
    the loop running: no amount of fuel makes the lookup return. *)
Theorem lookup_loops_on_cycle fuel sp name (s : run W) p url :
  web_current_user_playlists sp (remote s) = (Ret p, remote s) →
  web_get sp url (remote s) = (Ret p, remote s) →
  next p = Some url →
  url ≠ "" →
  for_playlist_in (items p) name = None →
  (playlist_exists fuel sp name s).1 = OutOfFuel.
Proof.
  intros Hfirst Hget Hnext Hurl Hfor.
  assert (Hloop : ∀ fuel (s1 : run W), remote s1 = remote s →
            (while_playlists fuel sp name (Some p) s1).1 = OutOfFuel).
  { clear fuel. induction fuel as [|fuel IH]; intros s1 Hs1; [done|].
    cbn [while_playlists]. rewrite Hfor.
    assert (Htruthy : truthy_str (next p) = true).
    { rewrite Hnext. cbn. by apply negb_true_iff, String.eqb_neq. }
    rewrite Htruthy. unfold sp_next. rewrite Htruthy, Hnext.
    change (default "" (Some url)) with url.
    unfold bind, request, ret. rewrite Hs1, Hget. by apply IH. }
  unfold playlist_exists, bind, sp_current_user_playlists, request.
  rewrite Hfirst. by apply Hloop.
Qed.

(** X11: the lookup does not recover from a failed page fetch: when the
    first page holds no match and the request for its [next] page
    fails, the lookup ends with that failure after these two
    requests. *)
Theorem lookup_propagates_fetch_error fuel sp name (s : run W) p w url e w' :
  web_current_user_playlists sp (remote s) = (Ret p, w) →
  for_playlist_in (items p) name = None →
  next p = Some url →
  url ≠ "" →
  web_get sp url w = (Raise e, w') →
  0 < fuel →
  playlist_exists fuel sp name s
  = (Raise e,
     mkRun w' (rng s)
           (calls s ++ [Call_current_user_playlists; Call_get url])
           (stdout s)).
Proof.
  intros Hfirst Hfor Hnext Hurl Hget Hfuel.
  destruct fuel as [|fuel]; [lia|].
  unfold playlist_exists, bind at 1, sp_current_user_playlists, request.
  rewrite Hfirst. cbn [while_playlists]. rewrite Hfor.
  assert (Htruthy : truthy_str (next p) = true).
  { rewrite Hnext. cbn. by apply negb_true_iff, String.eqb_neq. }
  rewrite Htruthy. unfold sp_next. rewrite Htruthy, Hnext.
  change (default "" (Some url)) with url.
  unfold bind, request. cbn [remote]. rewrite Hget. cbn.
  by rewrite <- (assoc_L (++)).
Qed.

End LookupExtras.


Lemma lookup_loops_on_cycle_witness :
  (playlist_exists 1000 example_sp PLAYLIST_NAME (start loop_web)).1
  = OutOfFuel.
Proof.
  apply (lookup_loops_on_cycle 1000 example_sp PLAYLIST_NAME (start loop_web)
           loop_page PAGE2);
    [reflexivity|vm_compute; reflexivity|reflexivity|discriminate|reflexivity].
Defined.

Lemma lookup_propagates_fetch_error_witness :
  playlist_exists 5 example_sp PLAYLIST_NAME (start dangling_web)
  = (Raise (SpotifyException 404),
     mkRun dangling_web example_rng
           [Call_current_user_playlists; Call_get PAGE2] []).
Proof.
  apply (lookup_propagates_fetch_error 5 example_sp PLAYLIST_NAME
           (start dangling_web) loop_page dangling_web PAGE2
           (SpotifyException 404) dangling_web);
    [reflexivity|reflexivity|reflexivity|discriminate|vm_compute; reflexivity
    |lia].
Defined.

(** ** Adding, replacing and creating, for every client *)

Section OperationExtras.
Context {W : Type} `{SpotifyClient W}.

(** X12: for a non-empty list, [add_tracks] sends the whole list in one
    [playlist_add_items] request.  Its outcome is the outcome of that
    request, and the line with the number of tracks is printed only when
    the request succeeded. *)
Theorem add_tracks_sends_all (sp : Spotify) (playlist_id : string)
    (track_uris : list string) (s : run W) :
  track_uris ≠ [] →
  let answer := web_playlist_add_items sp playlist_id track_uris (remote s) in
  add_tracks sp playlist_id track_uris s
  = (answer.1,
     mkRun answer.2 (rng s)
           (calls s ++ [Call_playlist_add_items playlist_id track_uris])
           (stdout s ++
              match answer.1 with
              | Ret _ => ["🎵 Added " +:+ pretty (length track_uris)
                          +:+ " tracks to playlist."]
              | _ => []
              end)).
Proof.
  intros Hne answer. unfold add_tracks.
  destruct track_uris as [|u us]; [done|]. cbn [truthy_list negb].
  unfold bind, sp_playlist_add_items, request, print. fold answer.
  destruct answer as [[[]|e|] w]; cbn; by rewrite ?app_nil_r.
Qed.

(** X13: [replace_tracks] sends the whole sequence in one
    [playlist_replace_items] request, whatever its length.  Its outcome
    is the outcome of that request, and the confirmation line is printed
    only when the request succeeded. *)
Theorem replace_tracks_sends_all (sp : Spotify) (playlist_id : string)
    (track_uris : list string) (s : run W) :
  let answer :=
    web_playlist_replace_items sp playlist_id track_uris (remote s) in
  replace_tracks sp playlist_id track_uris s
  = (answer.1,
     mkRun answer.2 (rng s)
           (calls s ++ [Call_playlist_replace_items playlist_id track_uris])
           (stdout s ++
              match answer.1 with
              | Ret _ => ["🎵 Replaced tracks in playlist with ID: "
                          +:+ playlist_id +:+ "."]
              | _ => []
              end)).
Proof.
  intros answer.
  unfold replace_tracks, bind, sp_playlist_replace_items, request, print.
  fold answer. destruct answer as [[[]|e|] w]; cbn; by rewrite ?app_nil_r.
Qed.

(** The requests of [create_playlist], whatever the answers. *)
Lemma create_playlist_calls sp name description public (s : run W) :
  rng (create_playlist sp name description public s).2 = rng s
  ∧ ∃ created,
      calls (create_playlist sp name description public s).2
      = calls s ++ Call_me :: created
      ∧ (created = []
         ∨ ∃ u, created
                = [Call_user_playlist_create u name public description]).
Proof.
  unfold create_playlist, bind, sp_me, sp_user_playlist_create, request,
    print, ret.
  destruct (web_me sp (remote s)) as [[u|e|] w1]; cbn;
    try (split; [done|]; exists []; by auto).
  destruct (web_user_playlist_create sp (u_id u) name public description w1)
    as [[pl|e|] w2]; cbn;
    (split; [done|]); eexists; rewrite <- (assoc_L (++)); cbn; eauto.
Qed.

(** X14: [create_playlist] first asks who the user is and creates the
    playlist under the id of that answer.  When the identity request
    fails no create request is sent.  On success the result is the id in
    the service's answer, and the printed line shows the name and URL of
    that answer. *)
Theorem create_playlist_requests sp name description public (s : run W) :
  let who := web_me sp (remote s) in
  match who.1 with
  | Ret u =>
      let made :=
        web_user_playlist_create sp (u_id u) name public description who.2 in
      create_playlist sp name description public s
      = (match made.1 with
         | Ret pl => Ret (pl_id pl)
         | Raise e => Raise e
         | OutOfFuel => OutOfFuel
         end,
         mkRun made.2 (rng s)
               (calls s ++ [Call_me;
                            Call_user_playlist_create (u_id u) name public
                              description])
               (stdout s ++
                  match made.1 with
                  | Ret pl => ["✅ Created playlist: " +:+ pl_name pl +:+ " ("
                               +:+ pl_external_url pl +:+ ")"]
                  | _ => []
                  end))
  | Raise e =>
      create_playlist sp name description public s
      = (Raise e, mkRun who.2 (rng s) (calls s ++ [Call_me]) (stdout s))
  | OutOfFuel =>
      create_playlist sp name description public s
      = (OutOfFuel, mkRun who.2 (rng s) (calls s ++ [Call_me]) (stdout s))
  end.
Proof.
  intros who.
  unfold create_playlist, bind, sp_me, sp_user_playlist_create, request,
    print, ret.
  fold who. destruct who as [[u|e|] w1]; cbn; [|done..].
  destruct (web_user_playlist_create sp (u_id u) name public description w1)
    as [[pl|e|] w2]; cbn; by rewrite <- ?(assoc_L (++)), ?app_nil_r.
Qed.

End OperationExtras.

Lemma add_tracks_sends_all_witness :
  (add_tracks example_sp "pl1" ["spotify:track:x"; "spotify:track:y"]
     (start capsule_web)).1 = Ret ()
  ∧ stdout (add_tracks example_sp "pl1"
              ["spotify:track:x"; "spotify:track:y"] (start capsule_web)).2
    = ["🎵 Added 2 tracks to playlist."].
Proof.
  rewrite (add_tracks_sends_all example_sp "pl1"
             ["spotify:track:x"; "spotify:track:y"] (start capsule_web))
    by discriminate.
  split; vm_compute; reflexivity.
Defined.

(** ** The run on an account that has the playlist *)

Section Refill.

Lemma for_playlist_in_elem (l : list playlist) (name i : string) :
  for_playlist_in l name = Some i →
  ∃ pl, pl ∈ l ∧ pl_id pl = i.
Proof.
  intros (before & pl & after & -> & _ & _ & Hid)%for_playlist_in_Some.
  exists pl. split; [|done]. apply elem_of_app. right. by left.
Qed.

Lemma elem_of_concat_items (ps : list page) (pl : playlist) :
  pl ∈ concat (items <$> ps) → ∃ q, q ∈ ps ∧ pl ∈ items q.
Proof.
  induction ps as [|p ps IH]; cbn; [by intros ?%elem_of_nil|].
  intros [Hin|Hin]%elem_of_app.
  - exists p. split; [by left|done].
  - destruct (IH Hin) as (q & Hq & Hpl). exists q. split; [by right|done].
Qed.

Lemma page_chain_stored pages p ps q :
  page_chain pages p ps → q ∈ ps →
  q = p ∨ ∃ url, pages !! url = Some q.
Proof.
  induction 1 as [p Hlast|p url p' ps Hnext Hurl Hp' Hchain IH].
  - intros ->%list_elem_of_singleton. by left.
  - intros [->|Hin]%elem_of_cons; [by left|]. right.
    destruct (IH Hin) as [->|?]; eauto.
Qed.

Lemma existsb_elem_of {A} (f : A → bool) (l : list A) (x : A) :
  x ∈ l → f x = true → existsb f l = true.
Proof.
  intros Hin Hf. apply existsb_exists. exists x.
  split; [by apply list_elem_of_In|done].
Qed.

(** A playlist the lookup finds is one the service knows. *)
Lemma knows_found (w : web) ps name i :
  page_chain (web_pages w) (web_first w) ps →
  for_playlist_in (concat (items <$> ps)) name = Some i →
  knows w i = true.
Proof.
  intros Hchain (pl & Hin & Hid)%for_playlist_in_elem.
  apply elem_of_concat_items in Hin as (q & Hq & Hpl).
  assert (Hhas : has_id i pl = true) by (unfold has_id; by apply String.eqb_eq).
  unfold knows.
  destruct (page_chain_stored _ _ _ _ Hchain Hq) as [->|[url Hurl]].
  - by rewrite (existsb_elem_of _ _ pl Hpl Hhas).
  - apply orb_true_iff. right.
    apply (existsb_elem_of _ _ (url, q)); [by apply elem_of_map_to_list|].
    by apply (existsb_elem_of _ _ pl).
Qed.

(** After [with_tracks], a stored playlist with the given id holds the
    new items. *)
Lemma with_tracks_items (w : web) i uris q pl :
  q = web_first (with_tracks i (λ _, uris) w)
  ∨ (∃ url, web_pages (with_tracks i (λ _, uris) w) !! url = Some q) →
  pl ∈ items q → pl_id pl = i → pl_tracks pl = uris.
Proof.
  intros Hq Hpl Hid.
  assert (Hup : ∃ q0, q = update_page i (λ _, uris) q0).
  { destruct Hq as [->|[url Hurl]]; [by eexists|].
    cbn in Hurl. rewrite lookup_fmap in Hurl.
    destruct (web_pages w !! url) as [q0|]; simplify_eq/=. by eexists. }
  destruct Hup as [q0 ->]. cbn in Hpl.
  apply list_elem_of_fmap in Hpl as (pl0 & -> & _).
  unfold update_playlist, has_id in *.
  destruct (String.eqb_spec (pl_id pl0) i) as [_|Hne]; [done|].
  by destruct Hne.
Qed.

(** X15: when the lookup finds a playlist named "My time capsule" (with
    a non-empty id) and each stratum holds at least 10 rows, the run
    completes without creating anything: after the page fetches its only
    request is one [playlist_replace_items] for the found id with the 30
    selected URIs.  On the reference service every stored playlist with
    that id then holds exactly those 30 URIs: the old tracks are gone. *)
Theorem main_refills_existing fuel os (s s1 : run web) sp df ps i :
  get_spotify_client os s = (Ret sp, s1) →
  page_chain (web_pages (remote s)) (web_first (remote s)) ps →
  length ps ≤ fuel →
  for_playlist_in (concat (items <$> ps)) PLAYLIST_NAME = Some i →
  i ≠ "" →
  files os !! CSV_FILE = Some (Csv df) →
  10 ≤ length (high df) →
  10 ≤ length (medium df) →
  10 ≤ length (low df) →
  ∃ uris cs s',
    main fuel os s = (Ret (), s')
    ∧ (filter_tracks_by_play_count os CSV_FILE (rng s)).1 = Ret uris
    ∧ length uris = 30
    ∧ calls s'
      = calls s1 ++ Call_current_user_playlists :: cs
        ++ [Call_playlist_replace_items i uris]
    ∧ Forall (λ c, is_mutation c = false) cs
    ∧ remote s' = with_tracks i (λ _, uris) (remote s)
    ∧ ∀ q pl,
        q = web_first (remote s')
        ∨ (∃ url, web_pages (remote s') !! url = Some q) →
        pl ∈ items q → pl_id pl = i → pl_tracks pl = uris.
Proof.
  intros Hg Hchain Hfuel Hfound Hne Hf Hh Hm Hl.
  destruct (get_spotify_client_frame _ _ _ _ Hg) as (Hr & Hrng & Hout & _).
  rewrite <- Hr, <- Hrng in *.
  destruct (playlist_exists_chain fuel sp PLAYLIST_NAME s1 ps Hchain Hfuel)
    as (cs & Hfind & Hmut & _).
  rewrite Hfound in Hfind.
  assert (Htruthy : truthy_str (Some i) = true)
    by (by apply negb_true_iff, String.eqb_neq).
  epose proof (main_steps fuel os s s1 _ _ sp (Some i) i Hg Hfind) as Hmain.
  rewrite Htruthy in Hmain. specialize (Hmain eq_refl).
  cbn [rng remote calls stdout] in Hmain.
  destruct (selector_ok os CSV_FILE df (rng s1) Hf Hh Hm Hl)
    as (uris & g' & Hsel & Hlen).
  rewrite Hsel in Hmain. unfold bind in Hmain.
  rewrite replace_tracks_ref in Hmain by (by eapply knows_found).
  cbn [rng remote calls stdout] in Hmain.
  exists uris, cs. eexists. split; [exact Hmain|].
  rewrite Hsel. cbn [fst remote calls]. do 2 (split; [done|]).
  split; [by rewrite <- !(assoc_L (++))|]. split; [done|]. split; [done|].
  apply with_tracks_items.
Qed.

End Refill.

Lemma main_refills_existing_witness :
  ∃ uris cs s',
    main 2 example_os (start capsule_web) = (Ret (), s')
    ∧ length uris = 30
    ∧ calls s'
      = Call_current_user_playlists :: cs
        ++ [Call_playlist_replace_items "pl3" uris]
    ∧ remote s' = with_tracks "pl3" (λ _, uris) capsule_web.
Proof.
  destruct capsule_web_chain as (p2 & Hp2 & Hchain).
  assert (Hp2' : p2 = mkPage [ example_playlist "pl3" "My time capsule"
                                 ["old1"; "old2"; "old3"; "old4"; "old5"];
                               example_playlist "pl4" "Focus"
                                 ["spotify:track:b"] ] None).
  { vm_compute in Hp2. by injection Hp2. }
  destruct (main_refills_existing 2 example_os (start capsule_web)
              (start capsule_web) example_sp example_df _ "pl3" eq_refl Hchain)
    as (uris & cs & s' & Hmain & _ & Hlen & Hcalls & _ & Hremote & _).
  - simpl. lia.
  - rewrite Hp2'. reflexivity.
  - discriminate.
  - vm_compute. reflexivity.
  - vm_compute. lia.
  - vm_compute. lia.
  - vm_compute. lia.
  - exists uris, cs, s'. by repeat split.
Defined.

(** ** The requests of a whole run, for every client *)

Section RunShape.
Context {W : Type} `{SpotifyClient W}.

Lemma get_spotify_client_quiet (os : os_state) (s : run W) :
  ∃ cs, calls (get_spotify_client os s).2 = calls s ++ cs
        ∧ Forall (λ c, is_mutation c = false) cs.
Proof.
  assert (Hnone : ∀ s0 : run W, s0 = s →
            ∃ cs, calls s0 = calls s ++ cs
                  ∧ Forall (λ c, is_mutation c = false) cs).
  { intros s0 ->. exists []. by rewrite app_nil_r. }
  unfold get_spotify_client.
  destruct (truthy_str (getenv os "SPOTIFY_ACCESS_TOKEN")); [by apply Hnone|].
  unfold bind at 1, load_global. rewrite redirect_uri_unbound.
  destruct (truthy_str (getenv os "SPOTIFY_CLIENT_ID")
            && truthy_str (getenv os "SPOTIFY_CLIENT_SECRET")
            && truthy_str (getenv os "SPOTIFY_REFRESH_TOKEN"));
    [by apply Hnone|].
  unfold ret at 1. cbn iota.
  destruct (negb (path_exists os TOKEN_PATH)); [by apply Hnone|].
  unfold bind, lift_outcome, getitem, ret, raise.
  destruct (json_load os TOKEN_PATH) as [data|e|]; [|by apply Hnone..].
  destruct (data !! "client_id") as [cid|]; [|by apply Hnone].
  destruct (data !! "client_secret") as [csecret|]; [|by apply Hnone].
  destruct (data !! "redirect_uri") as [ruri|]; [|by apply Hnone].
  destruct (SpotifyOAuth_init_cases os cid csecret (Some ruri) SCOPE s)
    as [-> | [msg ->]]; [|by apply Hnone].
  destruct (data !! "refresh_token"); [|by apply Hnone].
  unfold refresh_access_token, request.
  destruct (web_refresh_access_token _ _ (remote s)) as [[t|e|] w]; cbn;
    eexists; (split; [done|]); by repeat constructor.
Qed.

Lemma select_then_calls {A} os csv_file playlist_id
    (k : list string → M (run W) A) (s : run W) :
  (∀ uris s0, ∃ cs,
      calls (k uris s0).2 = calls s0 ++ cs
      ∧ (cs = [] ∨ cs = [Call_playlist_replace_items playlist_id uris])) →
  ∃ cs,
    calls ((track_uris <-
              with_rng (filter_tracks_by_play_count os csv_file) ;;
            k track_uris) s).2
    = calls s ++ cs
    ∧ replaces_once playlist_id cs.
Proof.
  intros Hk. unfold bind, with_rng.
  destruct (filter_tracks_by_play_count os csv_file (rng s))
    as [[uris|e|] g] eqn:Hsel;
    try (exists []; cbn; rewrite app_nil_r; split; [done|by left]).
  destruct (Hk uris (mkRun (remote s) g (calls s) (stdout s)))
    as (cs & Hc & Hshape).
  exists cs. split; [exact Hc|]. destruct Hshape as [-> | ->]; [by left|].
  right. exists uris. split; [done|].
  destruct (selector_inv _ _ _ _ _ Hsel)
    as (df & hi & mi & lo & _ & -> & [_ S1] & [_ S2] & [_ S3]).
  rewrite !length_app, !length_fmap.
  by rewrite (sampled_from_length _ _ _ S1), (sampled_from_length _ _ _ S2),
    (sampled_from_length _ _ _ S3).
Qed.

Lemma replace_tracks_calls sp playlist_id uris (s : run W) :
  calls (replace_tracks sp playlist_id uris s).2
  = calls s ++ [Call_playlist_replace_items playlist_id uris].
Proof.
  unfold replace_tracks, bind, sp_playlist_replace_items, request, print.
  destruct (web_playlist_replace_items sp playlist_id uris (remote s))
    as [[[]|e|] w]; done.
Qed.

Lemma replace_then_print_calls sp playlist_id uris line (s : run W) :
  calls ((replace_tracks sp playlist_id uris ;;; print line) s).2
  = calls s ++ [Call_playlist_replace_items playlist_id uris].
Proof.
  unfold bind. pose proof (replace_tracks_calls sp playlist_id uris s) as Hc.
  destruct (replace_tracks sp playlist_id uris s) as [[[]|e|] s']; done.
Qed.

(** X16: whatever the client answers, a run of [main] sends its
    mutating requests in a fixed shape: after requests that change
    nothing, at most one [user_playlist_create] (for "My time capsule",
    private, with the script's description), and after it at most one
    [playlist_replace_items], which always carries exactly 30 URIs.
    [main] never sends [playlist_add_items]. *)
Theorem main_request_shape fuel os (s : run W) :
  ∃ quiet created replaced,
    calls (main fuel os s).2 = calls s ++ quiet ++ created ++ replaced
    ∧ Forall (λ c, is_mutation c = false) quiet
    ∧ (created = []
       ∨ ∃ u, created
              = [Call_user_playlist_create u PLAYLIST_NAME false DESCRIPTION])
    ∧ (replaced = []
       ∨ ∃ playlist_id uris,
           replaced = [Call_playlist_replace_items playlist_id uris]
           ∧ length uris = 30).
Proof.
  unfold main. unfold bind at 1.
  destruct (get_spotify_client_quiet os s) as (cs0 & Hc0 & Hq0).
  destruct (get_spotify_client os s) as [[sp|e|] s1]; cbn [snd] in Hc0;
    [|exists cs0, []; exists []; cbn [snd]; rewrite !app_nil_r;
      (split; [exact Hc0|]); (split; [exact Hq0|]); split; by left..].
  cbn zeta. unfold bind at 1.
  destruct (playlist_exists_reads fuel sp "My time capsule" s1)
    as (urls & Hc1 & _).
  assert (Hq1 : Forall (λ c, is_mutation c = false)
                  (cs0 ++ Call_current_user_playlists :: (Call_get <$> urls))).
  { apply Forall_app. split; [done|]. constructor; [done|].
    apply Forall_get_quiet. }
  destruct (playlist_exists fuel sp "My time capsule" s1)
    as [[found|e|] s2]; cbn [snd] in Hc1;
    [|exists (cs0 ++ Call_current_user_playlists :: (Call_get <$> urls)), [];
      exists []; cbn [snd];
      rewrite !app_nil_r, Hc1, Hc0, <- (assoc_L (++));
      (split; [reflexivity|]); (split; [exact Hq1|]); split; by left..].
  unfold bind at 1.
  destruct (negb (truthy_str found)).
  - destruct (create_playlist_calls sp PLAYLIST_NAME DESCRIPTION false s2)
      as (_ & created & Hc2 & Hshape).
    unfold PLAYLIST_NAME, DESCRIPTION in Hc2.
    match type of Hc2 with calls (?c).2 = _ =>
      destruct c as [[playlist_id|e|] s3] end; cbn [snd] in Hc2.
    + destruct (select_then_calls os "final_filtered_tracks_with_uri.csv"
                  playlist_id
                  (λ uris, replace_tracks sp playlist_id uris ;;;
                           print ("✅ Playlist update complete. Listen to it here: https://open.spotify.com/playlist/"
                                  +:+ playlist_id)) s3)
        as (replaced & Hc3 & Hrep).
      { intros uris s0. eexists. split; [apply replace_then_print_calls|].
        by right. }
      exists (cs0 ++ Call_current_user_playlists :: (Call_get <$> urls)
              ++ [Call_me]), created, replaced.
      split.
      { etrans; [exact Hc3|]. rewrite Hc2, Hc1, Hc0.
        rewrite <- !(assoc_L (++)). cbn. by rewrite <- !(assoc_L (++)). }
      split.
      { apply Forall_app. split; [done|]. constructor; [done|].
        apply Forall_app. split; [apply Forall_get_quiet|by constructor]. }
      split; [done|]. destruct Hrep as [-> | (uris & -> & Hlen)]; eauto.
    + exists (cs0 ++ Call_current_user_playlists :: (Call_get <$> urls)
              ++ [Call_me]), created, [].
      split.
      { cbn [snd]. rewrite Hc2, Hc1, Hc0, app_nil_r.
        rewrite <- !(assoc_L (++)). cbn. by rewrite <- !(assoc_L (++)). }
      split; [|by auto].
      apply Forall_app. split; [done|]. constructor; [done|].
      apply Forall_app. split; [apply Forall_get_quiet|by constructor].
    + exists (cs0 ++ Call_current_user_playlists :: (Call_get <$> urls)
              ++ [Call_me]), created, [].
      split.
      { cbn [snd]. rewrite Hc2, Hc1, Hc0, app_nil_r.
        rewrite <- !(assoc_L (++)). cbn. by rewrite <- !(assoc_L (++)). }
      split; [|by auto].
      apply Forall_app. split; [done|]. constructor; [done|].
      apply Forall_app. split; [apply Forall_get_quiet|by constructor].
  - unfold bind at 1, print, ret. cbn [fst snd].
    match goal with |- context [bind _ _ ?s3] =>
      destruct (select_then_calls os "final_filtered_tracks_with_uri.csv"
                  (default "" found)
                  (λ uris, replace_tracks sp (default "" found) uris ;;;
                           print ("✅ Playlist update complete. Listen to it here: https://open.spotify.com/playlist/"
                                  +:+ default "" found)) s3)
        as (replaced & Hc3 & Hrep)
    end.
    { intros uris s0. eexists. split; [apply replace_then_print_calls|].
      by right. }
    exists (cs0 ++ Call_current_user_playlists :: (Call_get <$> urls)),
      [], replaced.
    split.
    { etrans; [exact Hc3|]. cbn [calls]. rewrite Hc1, Hc0.
      by rewrite <- !(assoc_L (++)). }
    split; [done|]. split; [by left|].
    destruct Hrep as [-> | (uris & -> & Hlen)]; eauto.
Qed.

End RunShape.

Section CreateOrUpdate.
Context {W : Type} `{SpotifyClient W}.

(** A failing selector ends the run where it stands: nothing is sent
    after it. *)
Lemma select_then_raises {A} os csv_file (k : list string → M (run W) A)
    (s : run W) e :
  (filter_tracks_by_play_count os csv_file (rng s)).1 = Raise e →
  calls ((track_uris <-
            with_rng (filter_tracks_by_play_count os csv_file) ;;
          k track_uris) s).2
  = calls s.
Proof.
  intros Hraise. unfold bind, with_rng.
  destruct (filter_tracks_by_play_count os csv_file (rng s))
    as [[uris|e'|] g]; by simplify_eq/=.
Qed.

(** X17: whatever the client answers, [create_or_update_playlist] sends
    the requests of the lookup, then at most one [user_playlist_create]
    under the user id it was handed, public and with an empty
    description, then at most one [playlist_replace_items], which always
    carries exactly 30 URIs.  It never asks who the user is.  It creates
    before it selects: whenever the lookup returns nothing the create
    request is sent, also when the selector then fails, in which case no
    replacement follows. *)
Theorem create_or_update_request_shape fuel os sp
    (user_id playlist_name csv_file : string) (s : run W) :
  ∃ urls created replaced,
    calls (create_or_update_playlist fuel os sp user_id playlist_name
             csv_file s).2
    = calls s ++ Call_current_user_playlists :: (Call_get <$> urls)
      ++ created ++ replaced
    ∧ (created = []
       ∨ created = [Call_user_playlist_create user_id playlist_name true ""])
    ∧ (replaced = []
       ∨ ∃ playlist_id uris,
           replaced = [Call_playlist_replace_items playlist_id uris]
           ∧ length uris = 30)
    ∧ (∀ found,
         (playlist_exists fuel sp playlist_name s).1 = Ret found →
         truthy_str found = false →
         created = [Call_user_playlist_create user_id playlist_name true ""])
    ∧ (∀ e,
         (filter_tracks_by_play_count os csv_file (rng s)).1 = Raise e →
         replaced = []).
Proof.
  unfold create_or_update_playlist. unfold bind at 1.
  destruct (playlist_exists_reads fuel sp playlist_name s)
    as (urls & Hc1 & _ & Hr1 & _).
  destruct (playlist_exists fuel sp playlist_name s)
    as [[found|e|] s2]; cbn [fst snd] in *;
    [|exists urls, []; exists []; rewrite !app_nil_r;
      (split; [exact Hc1|]); (split; [by left|]); (split; [by left|]);
      split; [by intros|done]..].
  unfold bind at 1.
  destruct (truthy_str found) eqn:Htruthy; cbn [negb].
  - unfold ret at 1.
    destruct (select_then_calls os csv_file (default "" found)
                (λ uris, replace_tracks sp (default "" found) uris) s2)
      as (replaced & Hc3 & Hrep).
    { intros uris s0. eexists. split; [apply replace_tracks_calls|].
      by right. }
    exists urls, [], replaced.
    split.
    { etrans; [exact Hc3|]. rewrite Hc1. by rewrite <- !(assoc_L (++)). }
    split; [by left|]. split.
    { destruct Hrep as [-> | (uris & -> & Hlen)]; eauto. }
    split; [intros found' [= <-]; congruence|].
    intros e Hraise. rewrite <- Hr1 in Hraise.
    pose proof (select_then_raises os csv_file
                  (λ uris, replace_tracks sp (default "" found) uris)
                  s2 e Hraise) as Hnone.
    rewrite Hnone in Hc3. rewrite <- (app_nil_r (calls s2)) in Hc3 at 1.
    by apply app_inv_head in Hc3.
  - unfold bind at 1, sp_user_playlist_create, request, ret.
    destruct (web_user_playlist_create sp user_id playlist_name true ""
                (remote s2)) as [[pl|e|] w];
      [|exists urls, [Call_user_playlist_create user_id playlist_name true ""];
        exists []; cbn [snd calls]; rewrite Hc1, <- !(assoc_L (++));
        (split; [reflexivity|]); (split; [by right|]); (split; [by left|]);
        split; [by intros|done]..].
    match goal with |- context [bind _ _ ?s3] =>
      destruct (select_then_calls os csv_file (pl_id pl)
                  (λ uris, replace_tracks sp (pl_id pl) uris) s3)
        as (replaced & Hc3 & Hrep);
      [intros uris s0; eexists; split; [apply replace_tracks_calls|];
       by right|];
      pose proof (select_then_raises os csv_file
                    (λ uris, replace_tracks sp (pl_id pl) uris) s3) as Hnone
    end.
    cbn [rng calls] in Hnone, Hc3.
    exists urls, [Call_user_playlist_create user_id playlist_name true ""],
      replaced.
    split.
    { etrans; [exact Hc3|]. rewrite Hc1. by rewrite <- !(assoc_L (++)). }
    split; [by right|]. split.
    { destruct Hrep as [-> | (uris & -> & Hlen)]; eauto. }
    split; [done|].
    intros e Hraise. rewrite <- Hr1 in Hraise.
    rewrite (Hnone e Hraise) in Hc3.
    match type of Hc3 with ?l = _ =>
      rewrite <- (app_nil_r l) in Hc3 at 1 end.
    by apply app_inv_head in Hc3.
Qed.

End CreateOrUpdate.

Lemma create_or_update_request_shape_witness :
  (filter_tracks_by_play_count short_os CSV_FILE example_rng).1
  = Raise (ValueError
      "Cannot take a larger sample than population when 'replace=False'")
  ∧ ∃ urls,
      calls (create_or_update_playlist 1 short_os example_sp "abbie"
               PLAYLIST_NAME CSV_FILE (start bare_web)).2
      = Call_current_user_playlists :: (Call_get <$> urls)
        ++ [Call_user_playlist_create "abbie" PLAYLIST_NAME true ""].
Proof.
  assert (Hraise : (filter_tracks_by_play_count short_os CSV_FILE
                      example_rng).1
            = Raise (ValueError
                "Cannot take a larger sample than population when 'replace=False'"))
    by (vm_compute; reflexivity).
  split; [exact Hraise|].
  destruct (create_or_update_request_shape 1 short_os example_sp "abbie"
              PLAYLIST_NAME CSV_FILE (start bare_web))
    as (urls & created & replaced & Hcalls & _ & _ & Hcreated & Hfailed).
  rewrite (Hcreated None) in Hcalls by (vm_compute; reflexivity).
  rewrite (Hfailed _ Hraise) in Hcalls.
  exists urls. exact Hcalls.
Defined.

(** ** Where the lookup stops, and what shadows the tokens file *)

Section LookupStops.

Lemma while_playlists_stops pages sp name i p after before :
  for_playlist_in (items p) name = Some i →
  Forall (λ q, for_playlist_in (items q) name = None) before →
  ∀ p0 fuel (s : run web),
    page_chain pages p0 (before ++ p :: after) →
    web_pages (remote s) = pages →
    length before < fuel →
    while_playlists fuel sp name (Some p0) s
    = (Ret (Some i),
       mkRun (remote s) (rng s)
             (calls s ++ (Call_get <$> links (before ++ [p]))) (stdout s)).
Proof.
  intros Hmatch. induction 1 as [|b bs Hb _ IH];
    intros p0 [|fuel] s Hchain Hpages Hfuel; cbn in Hfuel; try lia.
  - destruct (page_chain_head _ _ _ Hchain) as [tl [= <- _]].
    cbn. rewrite Hmatch, app_nil_r. unfold ret. by destruct s.
  - inversion Hchain as [? Hlast Heq|? url q ps Hnext Hurl Hq Hrest]; subst.
    { by destruct bs. }
    cbn [while_playlists]. rewrite Hb.
    assert (Htruthy : truthy_str (next b) = true).
    { rewrite Hnext. cbn. by apply negb_true_iff, String.eqb_neq. }
    rewrite Htruthy. unfold sp_next. rewrite Htruthy, Hnext.
    change (default "" (Some url)) with url.
    unfold bind, request. cbn [web_get RefSpotify]. unfold ref_get.
    rewrite Hq. unfold ret.
    rewrite (IH q fuel) by (done || cbn; lia). cbn [remote rng calls stdout].
    rewrite <- (assoc_L (++)). do 3 f_equal.
    cbn. rewrite Hnext. by destruct bs.
Qed.

(** X18: the lookup fetches no page beyond the one that holds the first
    match.  When the pages before page [p] of the chain hold no playlist
    of the name and [p] holds one, the lookup returns the id found on
    [p] after fetching exactly the pages up to [p]; one unit of fuel per
    page up to [p] is enough, however long the rest of the chain is. *)
Theorem lookup_fetches_up_to_match fuel sp name (s : run web)
    before p after i :
  page_chain (web_pages (remote s)) (web_first (remote s))
             (before ++ p :: after) →
  Forall (λ q, for_playlist_in (items q) name = None) before →
  for_playlist_in (items p) name = Some i →
  length before < fuel →
  playlist_exists fuel sp name s
  = (Ret (Some i),
     mkRun (remote s) (rng s)
           (calls s ++ Call_current_user_playlists
              :: (Call_get <$> links (before ++ [p])))
           (stdout s))
  ∧ length (links (before ++ [p])) = length before.
Proof.
  intros Hchain Hbefore Hmatch Hfuel. split.
  - unfold playlist_exists, bind at 1, sp_current_user_playlists, request.
    cbn [web_current_user_playlists RefSpotify].
    erewrite while_playlists_stops; [|done..].
    cbn [remote rng calls stdout]. by rewrite <- (assoc_L (++)).
  - clear. induction before as [|b bs IH]; [done|].
    cbn [app]. destruct (bs ++ [p]) as [|q l] eqn:Heq; [by destruct bs|].
    change (links (b :: q :: l)) with (default "" (next b) :: links (q :: l)).
    cbn [length]. by rewrite IH.
Qed.

End LookupStops.

Lemma lookup_fetches_up_to_match_witness :
  playlist_exists 2 example_sp PLAYLIST_NAME (start capsule_web)
  = (Ret (Some "pl3"),
     mkRun capsule_web example_rng
           [Call_current_user_playlists; Call_get PAGE2] []).
Proof.
  destruct capsule_web_chain as (p2 & Hp2 & Hchain).
  assert (Hp2' : p2 = mkPage [ example_playlist "pl3" "My time capsule"
                                 ["old1"; "old2"; "old3"; "old4"; "old5"];
                               example_playlist "pl4" "Focus"
                                 ["spotify:track:b"] ] None).
  { vm_compute in Hp2. by injection Hp2. }
  subst p2.
  destruct (lookup_fetches_up_to_match 2 example_sp PLAYLIST_NAME
              (start capsule_web) [web_first capsule_web] _ [] "pl3" Hchain)
    as [Hrun _].
  - repeat constructor.
  - reflexivity.
  - simpl. lia.
  - exact Hrun.
Defined.

Section Shadowing.
Context {W : Type} `{SpotifyClient W}.

(** X19: the refresh credentials of the environment shadow the tokens
    file.  With no usable access token and the three variables set, the
    run ends with [NameError] for [redirect_uri] before any request,
    whatever the files hold: the third strategy is not reached. *)
Theorem env_credentials_shadow_tokens_file fuel (os : os_state) (s : run W) :
  truthy_str (getenv os "SPOTIFY_ACCESS_TOKEN") = false →
  truthy_str (getenv os "SPOTIFY_CLIENT_ID") = true →
  truthy_str (getenv os "SPOTIFY_CLIENT_SECRET") = true →
  truthy_str (getenv os "SPOTIFY_REFRESH_TOKEN") = true →
  main fuel os s = (Raise (NameError "redirect_uri"), s).
Proof.
  intros Ht Hi Hs Hr. unfold main, bind at 1.
  by rewrite get_spotify_client_env_refresh.
Qed.

End Shadowing.

Lemma env_credentials_shadow_tokens_file_witness :
  files shadowed_os !! TOKEN_PATH = Some (Json token_file)
  ∧ main 3 shadowed_os (start capsule_web)
    = (Raise (NameError "redirect_uri"), start capsule_web).
Proof.
  split; [vm_compute; reflexivity|].
  apply (env_credentials_shadow_tokens_file 3 shadowed_os (start capsule_web));
    reflexivity.
Defined.
